(** * Qualcomm RPM-over-SMD clock driver: vote protocol

    A shallow embedding of [drivers/clk/qcom/clk-smd-rpm.c].  The clock
    operations do not program hardware: they send rate votes to the RPM
    through [qcom_rpm_smd_write] and keep two mutable fields per clock,
    [rate] and [enabled].  Every operation runs with [rpm_smd_clk_lock]
    held from its first statement to its last, so one operation is one
    atomic step on the state of all clocks; the embedding is sequential.

    Integers are [Z].  [unsigned long] values are kept in
    [0, 2^BITS_PER_LONG) and the one place where the C arithmetic can
    leave that range ([DIV_ROUND_UP]) has its wrap-around written out, as
    has the conversion to 32 bits in [cpu_to_le32].  The macro [max] is
    [Z.max].  Messages printed with [pr_err] and [pr_debug] are left out. *)

From Stdlib Require Import ZArith List Bool Lia.
From stdpp Require Import base option list gmap.
Import ListNotations.
Local Open Scope Z_scope.

(** ** Data *)

(** Addresses of [struct clk_smd_rpm] objects (and of the RPM handle). *)
Definition ptr := Z.

(** Modelled from the spec: the vote set a call of the transport
    addresses.  [linux/soc/qcom/smd-rpm.h], which declares
    [QCOM_SMD_RPM_ACTIVE_STATE] and [QCOM_SMD_RPM_SLEEP_STATE], is not among
    the sources; the spec has the argument as a context, Active or Sleep. *)
Inductive rpm_state : Type :=
  | QCOM_SMD_RPM_ACTIVE_STATE
  | QCOM_SMD_RPM_SLEEP_STATE.

(** Modelled from the spec: [struct clk_smd_rpm], declared in
    [clk-smd-rpm.h], which is not among the sources.  The fields are the ones
    the functions of [clk-smd-rpm.c] read and write, under the names used
    there; in the spec they are resource_type, vote_key, resource_id,
    is_active_only, enabled, is_branch, peer and requested_rate.  [rpm] is
    the transport handle the probe stores in every clock.  The embedded
    [struct clk_hw hw] is represented by the address of the enclosing
    object, see [to_clk_smd_rpm]. *)
Record clk_smd_rpm : Type := Clk {
  rpm_res_type : Z;
  rpm_key : Z;
  rpm_clk_id : Z;
  active_only : bool;
  enabled : bool;
  branch : bool;
  peer : ptr;
  rate : Z;
  rpm : ptr
}.

Definition set_enabled (b : bool) (c : clk_smd_rpm) : clk_smd_rpm :=
  Clk (rpm_res_type c) (rpm_key c) (rpm_clk_id c) (active_only c) b
      (branch c) (peer c) (rate c) (rpm c).

Definition set_rate (v : Z) (c : clk_smd_rpm) : clk_smd_rpm :=
  Clk (rpm_res_type c) (rpm_key c) (rpm_clk_id c) (active_only c) (enabled c)
      (branch c) (peer c) v (rpm c).

(** A [__le32] object: its four bytes in memory order. *)
Definition le32 := list Z.

(** Modelled from the spec: [cpu_to_le32] of the kernel's byte order
    headers, which are not among the sources.  The spec has the three
    fields of a request as little-endian 32-bit values: the argument is
    converted to [__u32] (reduced modulo 2^32) and stored least significant
    byte first. *)
Definition cpu_to_le32 (x : Z) : le32 :=
  [ Z.land x 255;
    Z.land (Z.shiftr x 8) 255;
    Z.land (Z.shiftr x 16) 255;
    Z.land (Z.shiftr x 24) 255 ].

(** Reading a [__le32] object back. *)
Definition le32_to_cpu (b : le32) : Z :=
  fold_right (fun byte acc => byte + 256 * acc) 0 b.

(** Modelled from the spec: [struct clk_smd_rpm_req], declared in
    [clk-smd-rpm.h].  The fields are the ones the initializers in
    [clk-smd-rpm.c] name; the spec gives the layout, 12 bytes: key, length
    and value, each a little-endian 32-bit field. *)
Record clk_smd_rpm_req : Type := Req {
  key : le32;
  nbytes : le32;
  value : le32
}.

(** The bytes at [&req]. *)
Definition req_bytes (q : clk_smd_rpm_req) : list Z :=
  key q ++ nbytes q ++ value q.

(** The value field of a request buffer: the bytes at offset 8. *)
Definition buf_value (buf : list Z) : le32 := drop 8 buf.

(** One call of [qcom_rpm_smd_write (rpm, state, type, id, buf, count)]. *)
Record rpm_msg : Type := Msg {
  msg_rpm : ptr;
  msg_state : rpm_state;
  msg_type : Z;
  msg_id : Z;
  msg_buf : list Z;
  msg_count : Z
}.

(** The state the operations run in: the clock objects by address, and
    the calls made to the RPM so far, oldest first, each with the value
    the call returned. *)
Record world : Type := World {
  clks : gmap Z clk_smd_rpm;
  sent : list (rpm_msg * Z)
}.

(** ** The monad of the operations

    A computation reads and updates the [world]; it yields [None] when it
    dereferences an address that holds no clock. *)
Definition M (A : Type) : Type := world -> option (A * world).

#[global] Instance M_ret : MRet M := fun A a w => Some (a, w).
#[global] Instance M_bind : MBind M := fun A B f m w =>
  match m w with
  | Some (a, w') => f a w'
  | None => None
  end.

(** [p->f] *)
Definition rd {A : Type} (f : clk_smd_rpm -> A) (p : ptr) : M A :=
  fun w => match clks w !! p with
           | Some c => Some (f c, w)
           | None => None
           end.

(** [p->f = v], as an update [upd] of the object at [p] *)
Definition wr (upd : clk_smd_rpm -> clk_smd_rpm) (p : ptr) : M unit :=
  fun w => match clks w !! p with
           | Some c => Some (tt, World (<[p := upd c]> (clks w)) (sent w))
           | None => None
           end.

(** The field [rate], for use where a parameter named [rate] is in scope. *)
Abbreviation rate_field := (rate).

(** [!!x] on an integer *)
Definition notnot (x : Z) : Z := if x =? 0 then 0 else 1.

(** [container_of (hw, struct clk_smd_rpm, hw)]: a [clk_hw] is identified
    with the clock object that contains it. *)
Definition to_clk_smd_rpm (hw : ptr) : ptr := hw.

(** ** Traces of votes *)

(** The order the protocol asks for, on the calls one operation makes:
    a sleep-set call comes directly after an active-set call that
    returned 0.  [prev_ok] tells whether the call before was one. *)
Fixpoint active_before_sleep (prev_ok : bool) (tr : list (rpm_msg * Z)) : bool :=
  match tr with
  | [] => true
  | (m, ret) :: tr' =>
      match msg_state m with
      | QCOM_SMD_RPM_ACTIVE_STATE => active_before_sleep (ret =? 0) tr'
      | QCOM_SMD_RPM_SLEEP_STATE => prev_ok && active_before_sleep false tr'
      end
  end.

(** The value a vote carries: its value field read back. *)
Definition voted_value (m : rpm_msg) : Z := le32_to_cpu (buf_value (msg_buf m)).

(** ** What a run gives back

    The outcome of an operation is [None] or a value and a world. *)

(** The value returned. *)
Definition returned {A : Type} (r : option (A * world)) : option A :=
  match r with
  | Some (a, _) => Some a
  | None => None
  end.

(** What the caller of an operation can look at afterwards: the value
    returned and the clock objects.  The calls made to the transport are
    between the driver and the RPM. *)
Definition observed {A : Type} (r : option (A * world))
    : option (A * gmap Z clk_smd_rpm) :=
  match r with
  | Some (a, w) => Some (a, clks w)
  | None => None
  end.

(** The [enabled] flag of the clock at [p] after a run. *)
Definition enabled_after {A : Type} (r : option (A * world)) (p : ptr)
    : option bool :=
  match r with
  | Some (_, w) => enabled <$> clks w !! p
  | None => None
  end.

(** The calls made up to the end of a run: vote set, value voted, value
    returned by the transport. *)
Definition calls {A : Type} (r : option (A * world))
    : list (rpm_state * Z * Z) :=
  match r with
  | Some (_, w) =>
      map (fun e => (msg_state (fst e), voted_value (fst e), snd e)) (sent w)
  | None => []
  end.

(** ** Sample clocks and transports

    A transport that answers its n-th call with the n-th entry of [rets],
    and with 0 once the list is used up. *)
Definition scripted (rets : list Z) : list (rpm_msg * Z) -> rpm_msg -> Z :=
  fun log _ => nth (length log) rets 0.

(** Resource types, keys and errnos, with their values in the kernel
    headers. *)
Definition MISC_CLK : Z := 0x306b6c63.
Definition BUS_CLK : Z := 0x316b6c63.
Definition KEY_ENABLE : Z := 0x62616e45.
Definition KEY_RATE : Z := 0x007a484b.
Definition SCALING_ENABLE_ID : Z := 2.
Definition EIO : Z := 5.
Definition ETIMEDOUT : Z := 110.

(** The pair of [DEFINE_CLK_SMD_RPM_BRANCH (msm8916, xo, xo_a,
    QCOM_SMD_RPM_MISC_CLK, 0, 19200000)]: two branch clocks of 19.2 MHz on
    resource 0, peers of each other, the second one active-only.  (The
    macro is in [clk-smd-rpm.h]; the fields it does not get as arguments
    are taken as said here.)  The clocks live at addresses 1 and 2; the RPM
    handle is address 100. *)
Definition xo : clk_smd_rpm :=
  Clk MISC_CLK KEY_ENABLE 0 false false true 2 19200000 100.
Definition xo_a : clk_smd_rpm :=
  Clk MISC_CLK KEY_ENABLE 0 true false true 1 19200000 100.

(** A pair of rate clocks on bus resource 0, at addresses 3 and 4, whose
    rate has not been set. *)
Definition bus : clk_smd_rpm :=
  Clk BUS_CLK KEY_RATE 0 false false false 4 0 100.
Definition bus_a : clk_smd_rpm :=
  Clk BUS_CLK KEY_RATE 0 true false false 3 0 100.

(** The same pair after a prepare and a set-rate to 100 MHz of [bus]. *)
Definition bus_on : clk_smd_rpm := set_rate 100000000 (set_enabled true bus).

(** All clocks unprepared, nothing sent yet. *)
Definition boot : world :=
  World (<[1 := xo]> (<[2 := xo_a]> (<[3 := bus]> (<[4 := bus_a]> ∅)))) [].

(** [boot] with [bus] prepared and running at 100 MHz. *)
Definition bus_running : world :=
  World (<[3 := bus_on]> (clks boot)) [].

(** ** The platform device

    What the probe gets from the device it is called for:
    [dev_get_drvdata (pdev->dev.parent)], the RPM handle or [NULL] (0), and
    [of_device_get_match_data (&pdev->dev)], the table [desc->clks] of
    [desc->num_clks] clock addresses, [NULL] where the platform has no
    clock, or no table at all. *)
Record platform_device : Type := Pdev {
  parent_drvdata : ptr;
  of_match_data : option (list ptr)
}.

(** The state the probe runs in: the clocks and the calls to the RPM, the
    calls made to [devm_clk_register] with the [struct clk *] each
    returned, and the clock array handed to [of_clk_add_provider], if a
    provider is installed. *)
Record system : Type := System {
  sys_world : world;
  sys_registered : list (ptr * Z);
  sys_provider : option (list Z)
}.

(** The kernel around the probe.  The errnos of [errno.h] and the error
    pointers of [linux/err.h] come first: a [struct clk *] is an integer
    here, and nothing is assumed of the three macros but what a theorem
    states.  Then the services the probe calls: [devm_kzalloc] gives
    memory for a table of [n] clocks or fails; [devm_clk_register] returns
    a [struct clk *], which may depend on the registrations made before;
    [of_clk_add_provider] returns 0 or an errno for the clock array it is
    given.  The clock framework does not write the driver's clocks while
    it registers one. *)
Record kernel : Type := Kernel {
  ENODEV : Z;
  EINVAL : Z;
  ENOMEM : Z;
  ENOENT : Z;
  ERR_PTR : Z -> Z;
  IS_ERR : Z -> bool;
  PTR_ERR : Z -> Z;
  devm_kzalloc : nat -> bool;
  devm_clk_register : list (ptr * Z) -> ptr -> Z;
  of_clk_add_provider : list Z -> Z
}.

(** The entries of the array handed to the provider: the error pointer of
    [-ENOENT] where the table has no clock, a clock that is no error
    pointer elsewhere. *)
Definition entry_ok (k : kernel) (q x : Z) : Prop :=
  if q =? 0 then x = ERR_PTR k (- ENOENT k) else IS_ERR k x = false.

(** The clocks of table [t] that are not [NULL] are clock objects. *)
Definition table_present (t : list ptr) (s : system) : Prop :=
  Forall (fun q => q <> 0 -> is_Some (clks (sys_world s) !! q)) t.

Definition set_rpm (h : ptr) (c : clk_smd_rpm) : clk_smd_rpm :=
  Clk (rpm_res_type c) (rpm_key c) (rpm_clk_id c) (active_only c) (enabled c)
      (branch c) (peer c) (rate c) h.

(** The clocks after [->rpm = h] for the entries [qs] of a table that are
    not [NULL]. *)
Definition bound (h : ptr) (qs : list ptr) (m : gmap Z clk_smd_rpm)
    : gmap Z clk_smd_rpm :=
  foldl (fun m q => if q =? 0 then m else alter (set_rpm h) q m) m qs.

(** The registrations [log] made after the registrations [before] hold
    what [devm_clk_register] returned: each clock is paired with the
    [struct clk *] the kernel gave for it, called with the registrations
    made until then. *)
Definition answered (k : kernel) (before log : list (ptr * Z)) : Prop :=
  forall i q x,
    log !! i = Some (q, x) ->
    x = devm_clk_register k (before ++ take i log) q.

(** Between [s] and [s'] every clock of table [t] was bound to the handle
    [h] and registered, in the order of the table and without an error
    pointer, and [out] is the array of the clocks registered, as
    [clks[i] = clk] fills it: the registrations made are the entries of
    the table that are not [NULL], each paired with the slot of [out] at
    the same index, and every such slot holds what [devm_clk_register]
    returned for that entry. *)
Definition registered_all (k : kernel) (h : ptr) (t : list ptr)
    (s s' : system) (out : list Z) : Prop :=
  exists log,
    sys_registered s' = sys_registered s ++ log /\
    map fst log = filter (fun q => q <> 0) t /\
    Forall (fun e => IS_ERR k (snd e) = false) log /\
    answered k (sys_registered s) log /\
    Forall2 (entry_ok k) t out /\
    log = filter (fun e => fst e <> 0) (zip t out) /\
    clks (sys_world s') = bound h t (clks (sys_world s)).

(** ** Sample kernels and devices *)

(** A transport that accepts every call. *)
Definition accepting : list (rpm_msg * Z) -> rpm_msg -> Z := fun _ _ => 0.

(** Errnos and error pointers as in [errno.h] and [linux/err.h] (an error
    pointer is an address in the last 4095), memory at hand, every
    registration giving a clock, every provider accepted. *)
Definition linux : kernel :=
  Kernel 19 22 12 2 (fun e => e)
         (fun p => (-4095 <=? p) && (p <? 0)) (fun p => p)
         (fun _ => true) (fun _ q => 1000 + Z.abs q) (fun _ => 0).


(** A device with the RPM handle 100 and a table of the four sample
    clocks, with a gap. *)
Definition rpmcc : platform_device := Pdev 100 (Some [1; 2; 0; 3; 4]).

(** The system at boot: no clock registered, no provider. *)
Definition at_boot : system := System boot [] None.

(** The sample clocks with both branch clocks enabled. *)
Definition xo_both : world :=
  World (<[1 := set_enabled true xo]>
           (<[2 := set_enabled true xo_a]> (clks boot))) [].

(** ** Conditions on the clocks and on the rates *)

(** Every clock's peer is a clock, whose peer is the first one again:
    the shape the [DEFINE_CLK_SMD_RPM] macros give the static clocks. *)
Definition linked (m : gmap Z clk_smd_rpm) : Prop :=
  forall q c, m !! q = Some c -> peer <$> m !! peer c = Some q.

(** A call that concerns the resource of clock [c] and no other: the
    clock's RPM handle, resource type and id, and a buffer of 12 bytes
    that starts with the clock's key and the length 4. *)
Definition addressed_to (c : clk_smd_rpm) (m : rpm_msg) : Prop :=
  msg_rpm m = rpm c /\ msg_type m = rpm_res_type c /\
  msg_id m = rpm_clk_id c /\
  take 4 (msg_buf m) = cpu_to_le32 (rpm_key c) /\
  take 4 (drop 4 (msg_buf m)) = cpu_to_le32 4 /\
  length (msg_buf m) = 12%nat /\ msg_count m = 12.

(** The first call of a trace addresses the active set, the second the
    sleep set, and the second carries no more than the first. *)
Definition sleep_at_most_active (tr : list (rpm_msg * Z)) : Prop :=
  forall ma ea ms es,
    tr !! 0%nat = Some (ma, ea) -> tr !! 1%nat = Some (ms, es) ->
    msg_state ma = QCOM_SMD_RPM_ACTIVE_STATE /\
    msg_state ms = QCOM_SMD_RPM_SLEEP_STATE /\
    voted_value ms <= voted_value ma.

(** Two clocks vote for the same resource in the same way. *)
Definition same_resource (c p : clk_smd_rpm) : Prop :=
  rpm c = rpm p /\ rpm_res_type c = rpm_res_type p /\
  rpm_clk_id c = rpm_clk_id p /\ rpm_key c = rpm_key p /\
  branch c = branch p.

Section Driver.

(** Width of [unsigned long]: 32 on msm8974 and apq8084, 64 on msm8916. *)
Variable BITS_PER_LONG : Z.

(** The transport, [qcom_rpm_smd_write], is outside the driver.  Its
    return value is taken as any function of the calls made before and
    of the present call: 0 for success, a negative errno otherwise. *)
Variable qcom_rpm_smd_write : list (rpm_msg * Z) -> rpm_msg -> Z.

(** Constants of [linux/soc/qcom/smd-rpm.h] and [clk-smd-rpm.h], whose
    values play no part. *)
Variable QCOM_RPM_SMD_KEY_ENABLE : Z.
Variable QCOM_SMD_RPM_MISC_CLK : Z.
Variable QCOM_RPM_SCALING_ENABLE_ID : Z.

(** Modelled from the spec: the macro [DIV_ROUND_UP] of [linux/kernel.h],
    which the driver uses and does not define.  The spec gives its meaning
    as rounding up, [ceil (n / d)].  It is written here the way the kernel
    computes it, the sum [n + d - 1] divided by [d], with the sum taken in
    [unsigned long], that is modulo [2^BITS_PER_LONG]; this is
    [ceil (n / d)] whenever the sum is below [2^BITS_PER_LONG] (see
    [DIV_ROUND_UP_ceil]). *)
Definition DIV_ROUND_UP (n d : Z) : Z :=
  ((n + d - 1) mod 2 ^ BITS_PER_LONG) / d.

(** A call of the transport: ask it, and record the call. *)
Definition smd_write (rpm : ptr) (state : rpm_state) (type id : Z)
    (buf : clk_smd_rpm_req) (count : Z) : M Z :=
  fun w =>
    let m := Msg rpm state type id (req_bytes buf) count in
    let ret := qcom_rpm_smd_write (sent w) m in
    Some (ret, World (clks w) (sent w ++ [(m, ret)])).

Definition clk_smd_rpm_set_rate_active (r : ptr) (rate : Z) : M Z :=
  k ← rd rpm_key r;
  let req := {| key := cpu_to_le32 k;
                nbytes := cpu_to_le32 4;
                value := cpu_to_le32 (DIV_ROUND_UP rate 1000) |} in
  h ← rd rpm r;
  t ← rd rpm_res_type r;
  i ← rd rpm_clk_id r;
  smd_write h QCOM_SMD_RPM_ACTIVE_STATE t i req 12.

Definition clk_smd_rpm_set_rate_sleep (r : ptr) (rate : Z) : M Z :=
  k ← rd rpm_key r;
  let req := {| key := cpu_to_le32 k;
                nbytes := cpu_to_le32 4;
                value := cpu_to_le32 (DIV_ROUND_UP rate 1000) |} in
  h ← rd rpm r;
  t ← rd rpm_res_type r;
  i ← rd rpm_clk_id r;
  smd_write h QCOM_SMD_RPM_SLEEP_STATE t i req 12.

(** The out-parameters [*active] and [*sleep] are returned as a pair. *)
Definition to_active_sleep (r : ptr) (rate : Z) : M (Z * Z) :=
  let active := rate in
  ao ← rd active_only r;
  if ao : bool then mret (active, 0) else mret (active, active).

(** The code at label [out] of [clk_smd_rpm_prepare]. *)
Definition prepare_out (r : ptr) (ret : Z) : M Z :=
  (if ret =? 0 then wr (set_enabled true) r else mret tt) ;;
  mret ret.

Definition clk_smd_rpm_prepare (hw : ptr) : M Z :=
  let r := to_clk_smd_rpm hw in
  peer ← rd peer r;
  r_rate ← rd rate r;
  if r_rate =? 0 then prepare_out r 0 else
  '(this_rate, this_sleep_rate) ← to_active_sleep r r_rate;
  peer_enabled ← rd enabled peer;
  '(peer_rate, peer_sleep_rate) ←
    (if peer_enabled : bool
     then peer_r ← rd rate peer; to_active_sleep peer peer_r
     else mret (0, 0));
  let active_rate := Z.max this_rate peer_rate in
  b ← rd branch r;
  let active_rate := if b : bool then notnot active_rate else active_rate in
  ret ← clk_smd_rpm_set_rate_active r active_rate;
  if negb (ret =? 0) then prepare_out r ret else
  let sleep_rate := Z.max this_sleep_rate peer_sleep_rate in
  b ← rd branch r;
  let sleep_rate := if b : bool then notnot sleep_rate else sleep_rate in
  ret ← clk_smd_rpm_set_rate_sleep r sleep_rate;
  ret ← (if negb (ret =? 0)
         then clk_smd_rpm_set_rate_active r peer_rate
         else mret ret);
  prepare_out r ret.

Definition clk_smd_rpm_unprepare (hw : ptr) : M unit :=
  let r := to_clk_smd_rpm hw in
  peer ← rd peer r;
  r_rate ← rd rate r;
  if r_rate =? 0 then mret tt else
  peer_enabled ← rd enabled peer;
  '(peer_rate, peer_sleep_rate) ←
    (if peer_enabled : bool
     then peer_r ← rd rate peer; to_active_sleep peer peer_r
     else mret (0, 0));
  b ← rd branch r;
  let active_rate := if b : bool then notnot peer_rate else peer_rate in
  ret ← clk_smd_rpm_set_rate_active r active_rate;
  if negb (ret =? 0) then mret tt else
  b ← rd branch r;
  let sleep_rate := if b : bool then notnot peer_sleep_rate else peer_sleep_rate in
  ret ← clk_smd_rpm_set_rate_sleep r sleep_rate;
  if negb (ret =? 0) then mret tt else
  wr (set_enabled false) r.

Definition clk_smd_rpm_set_rate (hw : ptr) (rate parent_rate : Z) : M Z :=
  let r := to_clk_smd_rpm hw in
  peer ← rd peer r;
  en ← rd enabled r;
  if negb en then mret 0 else
  '(this_rate, this_sleep_rate) ← to_active_sleep r rate;
  peer_enabled ← rd enabled peer;
  '(peer_rate, peer_sleep_rate) ←
    (if peer_enabled : bool
     then peer_r ← rd rate_field peer; to_active_sleep peer peer_r
     else mret (0, 0));
  let active_rate := Z.max this_rate peer_rate in
  ret ← clk_smd_rpm_set_rate_active r active_rate;
  if negb (ret =? 0) then mret ret else
  let sleep_rate := Z.max this_sleep_rate peer_sleep_rate in
  ret ← clk_smd_rpm_set_rate_sleep r sleep_rate;
  if negb (ret =? 0) then mret ret else
  wr (set_rate rate) r ;;
  mret 0.

Definition clk_smd_rpm_enable_scaling (rpm : ptr) : M Z :=
  let req := {| key := cpu_to_le32 QCOM_RPM_SMD_KEY_ENABLE;
                nbytes := cpu_to_le32 4;
                value := cpu_to_le32 1 |} in
  ret ← smd_write rpm QCOM_SMD_RPM_SLEEP_STATE QCOM_SMD_RPM_MISC_CLK
          QCOM_RPM_SCALING_ENABLE_ID req 12;
  if negb (ret =? 0) then mret ret else
  ret ← smd_write rpm QCOM_SMD_RPM_ACTIVE_STATE QCOM_SMD_RPM_MISC_CLK
          QCOM_RPM_SCALING_ENABLE_ID req 12;
  if negb (ret =? 0) then mret ret else
  mret 0.

(** The conversion of an [unsigned long] to [long], as the kernel is
    compiled: the value with the same bits. *)
Definition to_long (x : Z) : Z :=
  if x <? 2 ^ (BITS_PER_LONG - 1) then x else x - 2 ^ BITS_PER_LONG.

Definition clk_smd_rpm_round_rate (hw : ptr) (rate : Z) (parent_rate : ptr)
    : M Z :=
  mret (to_long rate).

Definition clk_smd_rpm_recalc_rate (hw : ptr) (parent_rate : Z) : M Z :=
  let r := to_clk_smd_rpm hw in
  rd rate_field r.

(** *** The probe *)

(** The loop over the table: [clks_out] is the part of [rcc->clks] filled
    so far.  The result is [inl ret] when the loop is left by [goto err],
    and the filled array otherwise. *)
Fixpoint probe_loop (k : kernel) (rpm : ptr) (rpm_smd_clks : list ptr)
    (clks_out : list Z) (s : system) : option ((Z + list Z) * system) :=
  match rpm_smd_clks with
  | [] => Some (inr clks_out, s)
  | q :: rest =>
      if q =? 0
      then probe_loop k rpm rest (clks_out ++ [ERR_PTR k (- ENOENT k)]) s
      else
        match wr (set_rpm rpm) q (sys_world s) with
        | None => None
        | Some (_, w1) =>
            let clk := devm_clk_register k (sys_registered s) q in
            let s1 := System w1 (sys_registered s ++ [(q, clk)])
                             (sys_provider s) in
            if IS_ERR k clk
            then Some (inl (PTR_ERR k clk), s1)
            else probe_loop k rpm rest (clks_out ++ [clk]) s1
        end
  end.

(** [rpm_smd_clk_probe].  A provider counts as installed when
    [of_clk_add_provider] returned 0, and as removed after
    [of_clk_del_provider].  [ret] is an [int] and [PTR_ERR] gives a
    [long]; the narrowing is not written out, an errno fits both.  The
    messages of [dev_err] are left out. *)
Definition rpm_smd_clk_probe (k : kernel) (pdev : platform_device)
    (s : system) : option (Z * system) :=
  let rpm := parent_drvdata pdev in
  if rpm =? 0 then Some (- ENODEV k, s) else
  match of_match_data pdev with
  | None => Some (- EINVAL k, s)
  | Some rpm_smd_clks =>
      let num_clks := length rpm_smd_clks in
      if negb (devm_kzalloc k num_clks) then Some (- ENOMEM k, s) else
      match probe_loop k rpm rpm_smd_clks [] s with
      | None => None
      | Some (inl ret, s1) => Some (ret, s1)
      | Some (inr clks, s1) =>
          let ret := of_clk_add_provider k clks in
          if negb (ret =? 0) then Some (ret, s1) else
          let s2 := System (sys_world s1) (sys_registered s1) (Some clks) in
          match clk_smd_rpm_enable_scaling rpm (sys_world s2) with
          | None => None
          | Some (ret, w3) =>
              if negb (ret =? 0)
              then Some (ret, System w3 (sys_registered s2) None)
              else Some (0, System w3 (sys_registered s2) (sys_provider s2))
          end
      end
  end.

(** [rpm_smd_clk_remove]: [of_clk_del_provider], and 0. *)
Definition rpm_smd_clk_remove (pdev : platform_device) (s : system)
    : option (Z * system) :=
  Some (0, System (sys_world s) (sys_registered s) None).

(** ** Pure descriptions used in the statements *)

(** A rate whose vote is sent as it is: rounding up does not wrap and the
    kHz value fits the 32-bit field. *)
Definition in_range (x : Z) : Prop :=
  0 <= x /\ x + 999 < 2 ^ BITS_PER_LONG /\ x <= 1000 * (2 ^ 32 - 1).

(** The message a vote of [rate] for clock [c] in vote set [st] is. *)
Definition vote (st : rpm_state) (c : clk_smd_rpm) (rate : Z) : rpm_msg :=
  Msg (rpm c) st (rpm_res_type c) (rpm_clk_id c)
      (cpu_to_le32 (rpm_key c) ++ cpu_to_le32 4 ++
       cpu_to_le32 (DIV_ROUND_UP rate 1000)) 12.

(** Sending [m] in world [w]: the transport's answer and the world after. *)
Definition submit (m : rpm_msg) (w : world) : Z * world :=
  let ret := qcom_rpm_smd_write (sent w) m in
  (ret, World (clks w) (sent w ++ [(m, ret)])).

(** What a peer in state [p] asks for, active and sleep: its rate if it
    is enabled (0 in the sleep set if it is active-only), else nothing. *)
Definition peer_rates (p : clk_smd_rpm) : Z * Z :=
  if enabled p
  then (rate p, if active_only p then 0 else rate p)
  else (0, 0).

(** The collapse of a rate to 0 or 1 for a branch clock. *)
Definition norm (c : clk_smd_rpm) (x : Z) : Z :=
  if branch c then notnot x else x.

(** The message of the scaling-enable request. *)
Definition scaling_msg (rpm : ptr) (st : rpm_state) : rpm_msg :=
  Msg rpm st QCOM_SMD_RPM_MISC_CLK QCOM_RPM_SCALING_ENABLE_ID
      (cpu_to_le32 QCOM_RPM_SMD_KEY_ENABLE ++ cpu_to_le32 4 ++ cpu_to_le32 1) 12.

(** ** Running the operations *)

Lemma rd_run {A} (f : clk_smd_rpm -> A) p c w :
  clks w !! p = Some c -> rd f p w = Some (f c, w).
Proof. intros H. unfold rd. now rewrite H. Qed.

Lemma wr_run upd p c w :
  clks w !! p = Some c ->
  wr upd p w = Some (tt, World (<[p := upd c]> (clks w)) (sent w)).
Proof. intros H. unfold wr. now rewrite H. Qed.

Lemma bind_run {A B} (m : M A) (f : A -> M B) w a w' :
  m w = Some (a, w') -> (m ≫= f) w = f a w'.
Proof. intros H. unfold mbind, M_bind. now rewrite H. Qed.

Ltac run_with H :=
  erewrite bind_run;
  [| first [ apply rd_run | apply wr_run ]; cbn [clks submit fst snd]; exact H ].

Lemma set_rate_active_run r c rate w :
  clks w !! r = Some c ->
  clk_smd_rpm_set_rate_active r rate w
  = Some (submit (vote QCOM_SMD_RPM_ACTIVE_STATE c rate) w).
Proof.
  intros H. unfold clk_smd_rpm_set_rate_active.
  do 4 run_with H. reflexivity.
Qed.

Lemma set_rate_sleep_run r c rate w :
  clks w !! r = Some c ->
  clk_smd_rpm_set_rate_sleep r rate w
  = Some (submit (vote QCOM_SMD_RPM_SLEEP_STATE c rate) w).
Proof.
  intros H. unfold clk_smd_rpm_set_rate_sleep.
  do 4 run_with H. reflexivity.
Qed.

Lemma to_active_sleep_run r c rate w :
  clks w !! r = Some c ->
  to_active_sleep r rate w
  = Some ((rate, if active_only c then 0 else rate), w).
Proof.
  intros H. unfold to_active_sleep. run_with H.
  destruct (active_only c); reflexivity.
Qed.

Lemma peer_rates_run (pp : ptr) p w :
  clks w !! pp = Some p ->
  (if enabled p
   then peer_r ← rd rate pp; to_active_sleep pp peer_r
   else mret (0, 0)) w = Some (peer_rates p, w).
Proof.
  intros H. unfold peer_rates.
  destruct (enabled p); [| reflexivity].
  run_with H. now apply to_active_sleep_run.
Qed.

Lemma prepare_out_run hw c ret w :
  clks w !! hw = Some c ->
  prepare_out hw ret w =
    if ret =? 0
    then Some (ret, World (<[hw := set_enabled true c]> (clks w)) (sent w))
    else Some (ret, w).
Proof.
  intros H. unfold prepare_out, wr, mbind, M_bind, mret, M_ret.
  destruct (ret =? 0); [rewrite H |]; reflexivity.
Qed.

(** One step of an operation whose clock is [c] (by [H]). *)
Ltac step H :=
  erewrite bind_run;
  [| first [ apply rd_run | apply to_active_sleep_run | apply peer_rates_run
           | apply set_rate_active_run | apply set_rate_sleep_run
           | apply wr_run ];
     cbn [clks submit fst snd]; exact H ].

(** Case split on the return value of the vote just sent. *)
Ltac split_on_ret :=
  unfold submit; cbn beta iota zeta;
  match goal with
  | |- context [negb (?r =? 0)] => destruct (r =? 0) eqn:?; cbn [negb]
  end.

(** [clk_smd_rpm_prepare] on a clock whose rate is set, statement by
    statement. *)
Lemma prepare_run w hw c p :
  clks w !! hw = Some c -> rate c <> 0 -> clks w !! peer c = Some p ->
  clk_smd_rpm_prepare hw w =
    let '(peer_rate, peer_sleep_rate) := peer_rates p in
    let '(ret, w1) :=
      submit (vote QCOM_SMD_RPM_ACTIVE_STATE c
                (norm c (Z.max (rate c) peer_rate))) w in
    if negb (ret =? 0) then Some (ret, w1) else
    let sleep_rate :=
      Z.max (if active_only c then 0 else rate c) peer_sleep_rate in
    let '(ret, w2) :=
      submit (vote QCOM_SMD_RPM_SLEEP_STATE c (norm c sleep_rate)) w1 in
    let '(ret, w3) :=
      if negb (ret =? 0)
      then submit (vote QCOM_SMD_RPM_ACTIVE_STATE c peer_rate) w2
      else (ret, w2) in
    if ret =? 0
    then Some (ret, World (<[hw := set_enabled true c]> (clks w3)) (sent w3))
    else Some (ret, w3).
Proof.
  intros Hc Hr Hp. unfold clk_smd_rpm_prepare, to_clk_smd_rpm.
  do 2 step Hc. apply Z.eqb_neq in Hr. rewrite Hr.
  step Hc. cbn beta iota. do 2 step Hp.
  destruct (peer_rates p) as [peer_rate peer_sleep_rate].
  do 2 step Hc. fold (norm c (Z.max (rate c) peer_rate)).
  split_on_ret.
  2:{ erewrite prepare_out_run by exact Hc.
      match goal with E : _ = false |- _ => now rewrite E end. }
  do 2 step Hc.
  fold (norm c (Z.max (if active_only c then 0 else rate c) peer_sleep_rate)).
  split_on_ret.
  - erewrite bind_run by reflexivity.
    erewrite prepare_out_run by exact Hc. reflexivity.
  - step Hc. unfold submit. cbn beta iota zeta.
    erewrite prepare_out_run by exact Hc. reflexivity.
Qed.

(** [clk_smd_rpm_prepare] on a clock whose rate is not set. *)
Lemma prepare_run_unset w hw c :
  clks w !! hw = Some c -> rate c = 0 ->
  clk_smd_rpm_prepare hw w
  = Some (0, World (<[hw := set_enabled true c]> (clks w)) (sent w)).
Proof.
  intros Hc Hr. unfold clk_smd_rpm_prepare, to_clk_smd_rpm.
  do 2 step Hc. rewrite Hr. cbn [Z.eqb].
  erewrite prepare_out_run by exact Hc. reflexivity.
Qed.

(** [clk_smd_rpm_unprepare], statement by statement. *)
Lemma unprepare_run w hw c p :
  clks w !! hw = Some c -> rate c <> 0 -> clks w !! peer c = Some p ->
  clk_smd_rpm_unprepare hw w =
    let '(peer_rate, peer_sleep_rate) := peer_rates p in
    let '(ret, w1) :=
      submit (vote QCOM_SMD_RPM_ACTIVE_STATE c (norm c peer_rate)) w in
    if negb (ret =? 0) then Some (tt, w1) else
    let '(ret, w2) :=
      submit (vote QCOM_SMD_RPM_SLEEP_STATE c (norm c peer_sleep_rate)) w1 in
    if negb (ret =? 0) then Some (tt, w2) else
    Some (tt, World (<[hw := set_enabled false c]> (clks w2)) (sent w2)).
Proof.
  intros Hc Hr Hp. unfold clk_smd_rpm_unprepare, to_clk_smd_rpm.
  do 2 step Hc. apply Z.eqb_neq in Hr. rewrite Hr.
  do 2 step Hp.
  destruct (peer_rates p) as [peer_rate peer_sleep_rate].
  do 2 step Hc. fold (norm c peer_rate).
  split_on_ret; [| reflexivity].
  do 2 step Hc. fold (norm c peer_sleep_rate).
  split_on_ret; [| reflexivity].
  now apply wr_run.
Qed.

Lemma unprepare_run_unset w hw c :
  clks w !! hw = Some c -> rate c = 0 ->
  clk_smd_rpm_unprepare hw w = Some (tt, w).
Proof.
  intros Hc Hr. unfold clk_smd_rpm_unprepare, to_clk_smd_rpm.
  do 2 step Hc. rewrite Hr. reflexivity.
Qed.

(** [clk_smd_rpm_set_rate] on an enabled clock, statement by statement. *)
Lemma set_rate_run w hw c p rate parent_rate :
  clks w !! hw = Some c -> enabled c = true -> clks w !! peer c = Some p ->
  clk_smd_rpm_set_rate hw rate parent_rate w =
    let '(peer_rate, peer_sleep_rate) := peer_rates p in
    let '(ret, w1) :=
      submit (vote QCOM_SMD_RPM_ACTIVE_STATE c (Z.max rate peer_rate)) w in
    if negb (ret =? 0) then Some (ret, w1) else
    let sleep_rate :=
      Z.max (if active_only c then 0 else rate) peer_sleep_rate in
    let '(ret, w2) :=
      submit (vote QCOM_SMD_RPM_SLEEP_STATE c sleep_rate) w1 in
    if negb (ret =? 0) then Some (ret, w2) else
    Some (0, World (<[hw := set_rate rate c]> (clks w2)) (sent w2)).
Proof.
  intros Hc He Hp. unfold clk_smd_rpm_set_rate, to_clk_smd_rpm.
  do 2 step Hc. rewrite He. cbn [negb].
  step Hc. cbn beta iota. do 2 step Hp.
  destruct (peer_rates p) as [peer_rate peer_sleep_rate].
  step Hc. split_on_ret; [| reflexivity].
  step Hc. split_on_ret; [| reflexivity].
  step Hc. reflexivity.
Qed.

Lemma set_rate_run_disabled w hw c rate parent_rate :
  clks w !! hw = Some c -> enabled c = false ->
  clk_smd_rpm_set_rate hw rate parent_rate w = Some (0, w).
Proof.
  intros Hc He. unfold clk_smd_rpm_set_rate, to_clk_smd_rpm.
  do 2 step Hc. rewrite He. reflexivity.
Qed.

(** ** Prepare without a rate *)

(** C7. For every clock whose rate is 0, prepare sends nothing to the
    transport, returns 0, and leaves the clock enabled. *)
Theorem prepare_unset_rate_votes_nothing w hw c :
  clks w !! hw = Some c -> rate c = 0 ->
  exists w',
    clk_smd_rpm_prepare hw w = Some (0, w') /\
    sent w' = sent w /\
    enabled <$> clks w' !! hw = Some true.
Proof.
  intros Hc Hr. eexists. split; [exact (prepare_run_unset w hw c Hc Hr) |].
  cbn [sent clks]. split; [reflexivity |].
  now rewrite lookup_insert_eq.
Qed.

(** ** Set-rate *)

(** C8. For every clock that is not enabled, set-rate returns 0 at once:
    no vote is sent and no field of any clock changes, so the new rate is
    not recorded. *)
Theorem set_rate_disabled_is_noop w hw c rate parent_rate :
  clks w !! hw = Some c -> enabled c = false ->
  clk_smd_rpm_set_rate hw rate parent_rate w = Some (0, w).
Proof. apply set_rate_run_disabled. Qed.

(** C5. Set-rate on an enabled clock.  Its votes are those of the new rate
    joined with what the peer asks for at that moment, and the rate field
    is written exactly when both votes return 0; when a vote fails the
    clocks are as before and the vote's return value is returned. *)
Theorem set_rate_commits_iff_both_votes_succeed w hw c p rate parent_rate :
  clks w !! hw = Some c -> enabled c = true -> clks w !! peer c = Some p ->
  let a := vote QCOM_SMD_RPM_ACTIVE_STATE c
             (Z.max rate (fst (peer_rates p))) in
  let s := vote QCOM_SMD_RPM_SLEEP_STATE c
             (Z.max (if active_only c then 0 else rate) (snd (peer_rates p))) in
  exists ret w' tr,
    clk_smd_rpm_set_rate hw rate parent_rate w = Some (ret, w') /\
    sent w' = sent w ++ tr /\
    ((exists e, e <> 0 /\ tr = [(a, e)] /\ ret = e /\ clks w' = clks w) \/
     (exists e, e <> 0 /\ tr = [(a, 0); (s, e)] /\ ret = e /\
                clks w' = clks w) \/
     (tr = [(a, 0); (s, 0)] /\ ret = 0 /\
      clks w' = <[hw := set_rate rate c]> (clks w))).
Proof.
  intros Hc He Hp a s. subst a s.
  rewrite (set_rate_run w hw c p rate parent_rate Hc He Hp).
  destruct (peer_rates p) as [peer_rate peer_sleep_rate]. cbn [fst snd].
  split_on_ret.
  - apply Z.eqb_eq in Heqb. rewrite Heqb.
    split_on_ret.
    + apply Z.eqb_eq in Heqb0. rewrite Heqb0.
      do 3 eexists. split; [reflexivity |]. cbn [sent clks].
      split; [now rewrite <- app_assoc |]. right. right. easy.
    + apply Z.eqb_neq in Heqb0.
      do 3 eexists. split; [reflexivity |]. cbn [sent clks].
      split; [now rewrite <- app_assoc |]. right. left.
      eexists. split; [exact Heqb0 |]. easy.
  - apply Z.eqb_neq in Heqb.
    do 3 eexists. split; [reflexivity |]. cbn [sent clks].
    split; [reflexivity |]. left.
    eexists. split; [exact Heqb |]. easy.
Qed.

(** ** Order of the votes *)

(** Case split on the next return value of the transport that is tested. *)
Ltac split_on_write :=
  unfold submit; cbn beta iota zeta; cbn [sent clks];
  match goal with
  | |- context [qcom_rpm_smd_write ?l ?m =? 0] =>
      destruct (qcom_rpm_smd_write l m =? 0) eqn:?; cbn [negb]
  end.

(** Name the trace of a finished run and check its order. *)
Ltac close_trace :=
  unfold submit; cbn beta iota zeta; cbn [sent clks];
  repeat match goal with
         | E : (_ =? 0) = _ |- _ => rewrite E
         end;
  cbn [negb];
  do 3 eexists; split; [reflexivity |]; cbn [sent clks];
  split; [rewrite <- ?app_assoc; try reflexivity;
          symmetry; apply app_nil_r |];
  cbn [app active_before_sleep vote msg_state];
  repeat match goal with
         | E : (_ =? 0) = _ |- _ => rewrite E
         end;
  reflexivity.

(** C6. In every prepare, unprepare and set-rate the calls to the
    transport are ordered: the first one addresses the active set, and a
    call that addresses the sleep set follows directly an active-set call
    that returned 0.  The call prepare makes on its way back after a
    failed sleep vote addresses the active set, so the order holds there
    as well. *)
Theorem lifecycle_votes_active_first w hw c p rate parent_rate :
  clks w !! hw = Some c -> clks w !! peer c = Some p ->
  (exists ret w' tr,
      clk_smd_rpm_prepare hw w = Some (ret, w') /\
      sent w' = sent w ++ tr /\ active_before_sleep false tr = true) /\
  (exists u w' tr,
      clk_smd_rpm_unprepare hw w = Some (u, w') /\
      sent w' = sent w ++ tr /\ active_before_sleep false tr = true) /\
  (exists ret w' tr,
      clk_smd_rpm_set_rate hw rate parent_rate w = Some (ret, w') /\
      sent w' = sent w ++ tr /\ active_before_sleep false tr = true).
Proof.
  intros Hc Hp. repeat split.
  - destruct (Z.eq_dec (rate_field c) 0) as [Hr | Hr].
    + rewrite (prepare_run_unset w hw c Hc Hr). close_trace.
    + rewrite (prepare_run w hw c p Hc Hr Hp).
      destruct (peer_rates p) as [peer_rate peer_sleep_rate].
      split_on_write; [| close_trace].
      split_on_write; [close_trace |].
      split_on_write; close_trace.
  - destruct (Z.eq_dec (rate_field c) 0) as [Hr | Hr].
    + rewrite (unprepare_run_unset w hw c Hc Hr). close_trace.
    + rewrite (unprepare_run w hw c p Hc Hr Hp).
      destruct (peer_rates p) as [peer_rate peer_sleep_rate].
      split_on_write; [| close_trace].
      split_on_write; close_trace.
  - destruct (enabled c) eqn:He.
    + rewrite (set_rate_run w hw c p rate parent_rate Hc He Hp).
      destruct (peer_rates p) as [peer_rate peer_sleep_rate].
      split_on_write; [| close_trace].
      split_on_write; close_trace.
    + rewrite (set_rate_run_disabled w hw c rate parent_rate Hc He).
      close_trace.
Qed.

(** Prepare when its sleep vote fails after a successful active vote: one
    more vote goes out, to the active set and for the peer's active rate
    as it is; the value prepare returns is the return value of that third
    call, and the clock is marked enabled when it is 0. *)
Lemma prepare_rollback w hw c p e :
  clks w !! hw = Some c -> rate c <> 0 -> clks w !! peer c = Some p ->
  let a := vote QCOM_SMD_RPM_ACTIVE_STATE c
             (norm c (Z.max (rate c) (fst (peer_rates p)))) in
  let s := vote QCOM_SMD_RPM_SLEEP_STATE c
             (norm c (Z.max (if active_only c then 0 else rate c)
                            (snd (peer_rates p)))) in
  let undo := vote QCOM_SMD_RPM_ACTIVE_STATE c (fst (peer_rates p)) in
  qcom_rpm_smd_write (sent w) a = 0 ->
  qcom_rpm_smd_write (sent w ++ [(a, 0)]) s = e -> e <> 0 ->
  let e' := qcom_rpm_smd_write (sent w ++ [(a, 0); (s, e)]) undo in
  clk_smd_rpm_prepare hw w =
    Some (e', World (if e' =? 0
                     then <[hw := set_enabled true c]> (clks w)
                     else clks w)
                    (sent w ++ [(a, 0); (s, e); (undo, e')])).
Proof.
  intros Hc Hr Hp a s undo Ha Hs He e'.
  rewrite (prepare_run w hw c p Hc Hr Hp). subst a s undo e'.
  destruct (peer_rates p) as [peer_rate peer_sleep_rate].
  cbn [fst snd] in *. apply Z.eqb_neq in He.
  unfold submit. cbn beta iota zeta. cbn [sent clks].
  rewrite Ha. cbn [Z.eqb negb]. cbn beta iota zeta. cbn [sent clks].
  rewrite Hs, He. cbn [negb]. cbn beta iota zeta. cbn [sent clks].
  rewrite <- !app_assoc. cbn [app].
  destruct (qcom_rpm_smd_write _ _ =? 0); reflexivity.
Qed.

(** ** Failed votes *)

(** Name the trace of a finished run and leave what is claimed of it. *)
Ltac open_trace :=
  unfold submit; cbn beta iota zeta; cbn [sent clks];
  repeat match goal with
         | E : (_ =? 0) = _ |- _ => rewrite E
         end;
  cbn [negb];
  do 3 eexists; split; [reflexivity |]; cbn [sent clks];
  split; [rewrite <- ?app_assoc; try reflexivity;
          symmetry; apply app_nil_r |];
  cbn [app].

(** An entry of a short, explicit trace that did not return 0. *)
Ltac failed_entry :=
  let i := fresh "i" in
  let H := fresh "H" in
  let Hne := fresh "Hne" in
  intros i ? ? H Hne;
  repeat (destruct i as [| i]; cbn in H; try discriminate H;
          try (injection H as <- <-));
  repeat match goal with
         | E : (?r =? 0) = true |- _ => apply Z.eqb_eq in E
         end;
  try congruence; try (split; [reflexivity | congruence]);
  try (split; reflexivity).

(** C3, amended.  A vote that fails ends set-rate and unprepare, and a
    failed first vote ends prepare: no call to the transport follows it.
    Set-rate returns the failed vote's return value as it is, and so does
    prepare for its first vote.  Unprepare returns no value; after a
    failed vote it leaves every clock as it was.  No operation sends more
    than two votes, except prepare, which sends a third one, to the active
    set, exactly after a failed sleep vote. *)
Theorem vote_failure_ends_operation w hw c p rate parent_rate :
  clks w !! hw = Some c -> clks w !! peer c = Some p ->
  (exists ret w' tr,
      clk_smd_rpm_set_rate hw rate parent_rate w = Some (ret, w') /\
      sent w' = sent w ++ tr /\
      ((length tr <= 2)%nat /\
       forall i m e, tr !! i = Some (m, e) -> e <> 0 ->
                     S i = length tr /\ ret = e)) /\
  (exists ret w' tr,
      clk_smd_rpm_prepare hw w = Some (ret, w') /\
      sent w' = sent w ++ tr /\
      ((length tr <= 3)%nat /\
       (forall m e, tr !! 0%nat = Some (m, e) -> e <> 0 ->
                    length tr = 1%nat /\ ret = e) /\
       (forall m e, tr !! 1%nat = Some (m, e) ->
                    (e <> 0 <-> length tr = 3%nat)) /\
       (forall m e, tr !! 2%nat = Some (m, e) ->
                    msg_state m = QCOM_SMD_RPM_ACTIVE_STATE))) /\
  (exists u w' tr,
      clk_smd_rpm_unprepare hw w = Some (u, w') /\
      sent w' = sent w ++ tr /\
      ((length tr <= 2)%nat /\
       forall i m e, tr !! i = Some (m, e) -> e <> 0 ->
                     S i = length tr /\ clks w' = clks w)).
Proof.
  intros Hc Hp. repeat apply conj.
  - destruct (enabled c) eqn:He.
    + rewrite (set_rate_run w hw c p rate parent_rate Hc He Hp).
      destruct (peer_rates p) as [peer_rate peer_sleep_rate].
      split_on_write; [split_on_write |];
        open_trace; (split; [cbn; lia | failed_entry]).
    + rewrite (set_rate_run_disabled w hw c rate parent_rate Hc He).
      open_trace. split; [cbn; lia | failed_entry].
  - destruct (Z.eq_dec (rate_field c) 0) as [Hr | Hr].
    + rewrite (prepare_run_unset w hw c Hc Hr). open_trace.
      repeat split; try (cbn; lia); cbn in *; discriminate.
    + rewrite (prepare_run w hw c p Hc Hr Hp).
      destruct (peer_rates p) as [peer_rate peer_sleep_rate].
      split_on_write; [split_on_write; [| split_on_write] |]; open_trace.
      all: split; [cbn; lia |].
      all: split; [intros m e H Hne; cbn in H; injection H as <- <-;
                   repeat match goal with
                          | E : (?r =? 0) = true |- _ => apply Z.eqb_eq in E
                          end; try congruence; split; reflexivity |].
      all: split; [intros m e H; cbn in H; try discriminate H;
                   injection H as <- <-;
                   repeat match goal with
                          | E : (?r =? 0) = true |- _ => apply Z.eqb_eq in E
                          | E : (?r =? 0) = false |- _ => apply Z.eqb_neq in E
                          end; cbn; split; intros; congruence || lia |].
      all: intros m e H; cbn in H; try discriminate H;
           injection H as <- <-; reflexivity.
  - destruct (Z.eq_dec (rate_field c) 0) as [Hr | Hr].
    + rewrite (unprepare_run_unset w hw c Hc Hr). open_trace.
      split; [cbn; lia | failed_entry].
    + rewrite (unprepare_run w hw c p Hc Hr Hp).
      destruct (peer_rates p) as [peer_rate peer_sleep_rate].
      split_on_write; [split_on_write |];
        open_trace; (split; [cbn; lia | failed_entry]).
Qed.

(** ** The enabled flag *)

(** Prepare writes the flag exactly when it returns 0, and then sets it. *)
Lemma prepare_sets_enabled_when_zero w hw c p :
  clks w !! hw = Some c -> clks w !! peer c = Some p ->
  exists ret w' tr,
    clk_smd_rpm_prepare hw w = Some (ret, w') /\
    sent w' = sent w ++ tr /\
    clks w' = if ret =? 0
              then <[hw := set_enabled true c]> (clks w)
              else clks w.
Proof.
  intros Hc Hp.
  destruct (Z.eq_dec (rate c) 0) as [Hr | Hr].
  - rewrite (prepare_run_unset w hw c Hc Hr). open_trace. reflexivity.
  - rewrite (prepare_run w hw c p Hc Hr Hp).
    destruct (peer_rates p) as [peer_rate peer_sleep_rate].
    split_on_write; [split_on_write; [| split_on_write] |]; open_trace;
      repeat match goal with
             | E : (_ =? 0) = _ |- _ => rewrite E
             end; reflexivity.
Qed.

(** Unprepare of a clock whose rate is set clears the flag exactly when
    its two votes return 0. *)
Lemma unprepare_clears_enabled_when_voted w hw c p :
  clks w !! hw = Some c -> rate c <> 0 -> clks w !! peer c = Some p ->
  exists u w' tr,
    clk_smd_rpm_unprepare hw w = Some (u, w') /\
    sent w' = sent w ++ tr /\
    clks w' = if forallb (fun e => snd e =? 0) tr && (length tr =? 2)%nat
              then <[hw := set_enabled false c]> (clks w)
              else clks w.
Proof.
  intros Hc Hr Hp.
  rewrite (unprepare_run w hw c p Hc Hr Hp).
  destruct (peer_rates p) as [peer_rate peer_sleep_rate].
  split_on_write; [split_on_write |]; open_trace;
    cbn [forallb snd length Nat.eqb andb];
    repeat match goal with
           | E : (_ =? 0) = _ |- _ => rewrite E
           end; reflexivity.
Qed.

(** ** Scaling enable *)

(** C10. The scaling-enable request goes to the sleep set first and to the
    active set second.  When the sleep-set call fails, no active-set call
    is made and the value returned is the one the sleep-set call returned;
    otherwise the value returned is the one of the active-set call. *)
Theorem enable_scaling_sleep_first rpm w :
  let ms := scaling_msg rpm QCOM_SMD_RPM_SLEEP_STATE in
  let ma := scaling_msg rpm QCOM_SMD_RPM_ACTIVE_STATE in
  exists ret w' tr,
    clk_smd_rpm_enable_scaling rpm w = Some (ret, w') /\
    sent w' = sent w ++ tr /\
    clks w' = clks w /\
    ((exists e, e <> 0 /\ tr = [(ms, e)] /\ ret = e) \/
     (exists e, tr = [(ms, 0); (ma, e)] /\ ret = e)).
Proof.
  intros ms ma. unfold clk_smd_rpm_enable_scaling.
  unfold mbind, M_bind, mret, M_ret, smd_write, req_bytes.
  cbn beta iota zeta. cbn [key nbytes value sent clks].
  fold (scaling_msg rpm QCOM_SMD_RPM_SLEEP_STATE).
  fold (scaling_msg rpm QCOM_SMD_RPM_ACTIVE_STATE). fold ms ma.
  destruct (qcom_rpm_smd_write (sent w) ms =? 0) eqn:Es; cbn [negb].
  - apply Z.eqb_eq in Es. rewrite Es. cbn beta. cbn [sent clks].
    destruct (qcom_rpm_smd_write (sent w ++ [(ms, 0)]) ma =? 0) eqn:Ea;
      cbn [negb].
    + apply Z.eqb_eq in Ea.
      do 3 eexists. split; [reflexivity |]. cbn [sent clks].
      split; [now rewrite <- app_assoc |]. split; [reflexivity |].
      right. eexists. split; [reflexivity | now symmetry].
    + do 3 eexists. split; [reflexivity |]. cbn [sent clks].
      split; [now rewrite <- app_assoc |]. split; [reflexivity |].
      right. eexists. split; reflexivity.
  - apply Z.eqb_neq in Es.
    do 3 eexists. split; [reflexivity |]. cbn [sent clks].
    split; [reflexivity |]. split; [reflexivity |].
    left. eexists. split; [exact Es |]. split; reflexivity.
Qed.

(** ** The request on the wire *)

Lemma cpu_to_le32_length x : length (cpu_to_le32 x) = 4%nat.
Proof. reflexivity. Qed.

(** The four bytes hold the argument modulo 2^32. *)
Lemma le32_to_cpu_of_cpu x : le32_to_cpu (cpu_to_le32 x) = x mod 2 ^ 32.
Proof.
  unfold le32_to_cpu, cpu_to_le32. cbn [fold_right].
  change 255 with (Z.ones 8).
  rewrite !Z.land_ones, !Z.shiftr_div_pow2 by lia.
  change (2 ^ 8) with 256. change (2 ^ 16) with 65536.
  change (2 ^ 24) with 16777216. change (2 ^ 32) with 4294967296.
  Z.div_mod_to_equations. lia.
Qed.

(** Where the sum does not wrap, [DIV_ROUND_UP] by 1000 is the least
    number of kHz that is no less than the rate. *)
Lemma DIV_ROUND_UP_ceil n :
  0 <= n -> n + 999 < 2 ^ BITS_PER_LONG ->
  n <= 1000 * DIV_ROUND_UP n 1000 < n + 1000.
Proof.
  intros Hn Hfit. unfold DIV_ROUND_UP.
  rewrite Z.mod_small by lia.
  Z.div_mod_to_equations. lia.
Qed.

(** The conversion to 32 bits is part of [cpu_to_le32]: a value and its
    remainder modulo 2^32 give the same four bytes. *)
Lemma le32_byte_mod x n :
  0 <= n <= 24 ->
  Z.land (Z.shiftr (x mod 2 ^ 32) n) 255 = Z.land (Z.shiftr x n) 255.
Proof.
  intros Hn. apply Z.bits_inj'. intros i Hi.
  rewrite !Z.land_spec, !Z.shiftr_spec by lia.
  destruct (Z_lt_dec i 8) as [Hlt | Hge].
  - rewrite Z.mod_pow2_bits_low by lia. reflexivity.
  - change 255 with (Z.ones 8). rewrite Z.ones_spec_high by lia.
    now rewrite !andb_false_r.
Qed.

Lemma cpu_to_le32_mod x : cpu_to_le32 (x mod 2 ^ 32) = cpu_to_le32 x.
Proof.
  unfold cpu_to_le32.
  pose proof (le32_byte_mod x 0) as H0. rewrite !Z.shiftr_0_r in H0.
  rewrite H0 by lia. rewrite !le32_byte_mod by lia. reflexivity.
Qed.

(** C9, amended.  The buffer of every vote, whatever the rate, is 12
    bytes: the clock's key, the length 4 and the value, each as a
    little-endian 32-bit field, the same in the active and in the sleep
    set; the value is [DIV_ROUND_UP (rate, 1000)] converted to 32 bits.
    For a rate in Hz such that rate + 999 fits [unsigned long] and the rate
    is at most 4294967295000, the value is the rate in kHz rounded up,
    [ceil (rate / 1000)]; so 19200000 Hz gives 19200, 1 Hz gives 1,
    1000 Hz gives 1 and 1001 Hz gives 2. *)
Theorem vote_payload_is_key_len_khz r c rate w :
  clks w !! r = Some c ->
  exists ma ms v,
    clk_smd_rpm_set_rate_active r rate w = Some (submit ma w) /\
    clk_smd_rpm_set_rate_sleep r rate w = Some (submit ms w) /\
    msg_state ma = QCOM_SMD_RPM_ACTIVE_STATE /\
    msg_state ms = QCOM_SMD_RPM_SLEEP_STATE /\
    msg_buf ms = msg_buf ma /\ msg_count ma = 12 /\ msg_count ms = 12 /\
    length (msg_buf ma) = 12%nat /\
    msg_buf ma = cpu_to_le32 (rpm_key c) ++ cpu_to_le32 4 ++ cpu_to_le32 v /\
    le32_to_cpu (take 4 (msg_buf ma)) = rpm_key c mod 2 ^ 32 /\
    le32_to_cpu (take 4 (drop 4 (msg_buf ma))) = 4 /\
    voted_value ma = v /\
    v = DIV_ROUND_UP rate 1000 mod 2 ^ 32 /\
    0 <= v < 2 ^ 32 /\
    (0 <= rate -> rate + 999 < 2 ^ BITS_PER_LONG ->
     rate <= 1000 * (2 ^ 32 - 1) ->
     rate <= 1000 * v < rate + 1000 /\
     (rate = 19200000 -> v = 19200) /\
     (rate = 1 -> v = 1) /\
     (rate = 1000 -> v = 1) /\
     (rate = 1001 -> v = 2)).
Proof.
  intros Hc.
  exists (vote QCOM_SMD_RPM_ACTIVE_STATE c rate),
         (vote QCOM_SMD_RPM_SLEEP_STATE c rate),
         (DIV_ROUND_UP rate 1000 mod 2 ^ 32).
  split; [now apply set_rate_active_run |].
  split; [now apply set_rate_sleep_run |].
  do 6 (split; [reflexivity |]).
  split; [rewrite cpu_to_le32_mod; reflexivity |].
  split; [exact (le32_to_cpu_of_cpu (rpm_key c)) |].
  split; [reflexivity |].
  split.
  { unfold voted_value, vote, buf_value. cbn [msg_buf].
    change (drop 8 (cpu_to_le32 (rpm_key c) ++ cpu_to_le32 4 ++
                    cpu_to_le32 (DIV_ROUND_UP rate 1000)))
      with (cpu_to_le32 (DIV_ROUND_UP rate 1000)).
    apply le32_to_cpu_of_cpu. }
  split; [reflexivity |].
  split; [apply Z.mod_pos_bound; lia |].
  intros Hrate Hfit H32.
  pose proof (DIV_ROUND_UP_ceil rate Hrate Hfit) as Hceil.
  rewrite (Z.mod_small (DIV_ROUND_UP rate 1000)) by lia.
  split; [exact Hceil |].
  repeat split; intros ->; lia.
Qed.

(** ** The runs of the operations, case by case *)

(** Case split on the return value of the call made after the log [l]. *)
Ltac case_write l E :=
  unfold submit; cbn beta iota zeta; cbn [sent clks];
  match goal with
  | |- context [qcom_rpm_smd_write l ?m] =>
      destruct (Z.eq_dec (qcom_rpm_smd_write l m) 0) as [E | E];
      [ rewrite !E; cbn [Z.eqb negb]
      | let E' := fresh in
        pose proof E as E'; apply Z.eqb_neq in E'; rewrite !E'; clear E';
        cbn [negb] ];
      cbn beta iota zeta; cbn [sent clks]
  end.

(** Name the trace of a finished run. *)
Ltac name_trace :=
  do 3 eexists; split; [reflexivity |]; cbn [sent clks];
  split; [rewrite <- ?app_assoc; try reflexivity;
          symmetry; apply app_nil_r |];
  cbn [app].

Lemma prepare_cases w hw c p :
  clks w !! hw = Some c -> rate c <> 0 -> clks w !! peer c = Some p ->
  let a := vote QCOM_SMD_RPM_ACTIVE_STATE c
             (norm c (Z.max (rate c) (fst (peer_rates p)))) in
  let s := vote QCOM_SMD_RPM_SLEEP_STATE c
             (norm c (Z.max (if active_only c then 0 else rate c)
                            (snd (peer_rates p)))) in
  let u := vote QCOM_SMD_RPM_ACTIVE_STATE c (fst (peer_rates p)) in
  exists ret w' tr,
    clk_smd_rpm_prepare hw w = Some (ret, w') /\
    sent w' = sent w ++ tr /\
    ((exists e, e <> 0 /\ tr = [(a, e)] /\ ret = e /\ clks w' = clks w) \/
     (tr = [(a, 0); (s, 0)] /\ ret = 0 /\
      clks w' = <[hw := set_enabled true c]> (clks w)) \/
     (exists e e', e <> 0 /\ tr = [(a, 0); (s, e); (u, e')] /\ ret = e' /\
        clks w' = if e' =? 0
                  then <[hw := set_enabled true c]> (clks w)
                  else clks w)).
Proof.
  intros Hc Hr Hp a s u. subst a s u.
  rewrite (prepare_run w hw c p Hc Hr Hp).
  destruct (peer_rates p) as [peer_rate peer_sleep_rate]. cbn [fst snd].
  case_write (sent w) Ea.
  - case_write (sent w ++ [(vote QCOM_SMD_RPM_ACTIVE_STATE c
                              (norm c (Z.max (rate c) peer_rate)), 0)]) Es.
    + name_trace. right. left. easy.
    + rewrite <- !app_assoc. cbn [app].
      destruct (qcom_rpm_smd_write _ _ =? 0) eqn:Eu; name_trace;
        right; right; do 2 eexists; (split; [exact Es |]);
        (split; [reflexivity |]); rewrite Eu; split; reflexivity.
  - name_trace. left. eexists. split; [exact Ea |]. easy.
Qed.

Lemma unprepare_cases w hw c p :
  clks w !! hw = Some c -> rate c <> 0 -> clks w !! peer c = Some p ->
  let a := vote QCOM_SMD_RPM_ACTIVE_STATE c (norm c (fst (peer_rates p))) in
  let s := vote QCOM_SMD_RPM_SLEEP_STATE c (norm c (snd (peer_rates p))) in
  exists u w' tr,
    clk_smd_rpm_unprepare hw w = Some (u, w') /\
    sent w' = sent w ++ tr /\
    ((exists e, e <> 0 /\ tr = [(a, e)] /\ clks w' = clks w) \/
     (exists e, e <> 0 /\ tr = [(a, 0); (s, e)] /\ clks w' = clks w) \/
     (tr = [(a, 0); (s, 0)] /\
      clks w' = <[hw := set_enabled false c]> (clks w))).
Proof.
  intros Hc Hr Hp a s. subst a s.
  rewrite (unprepare_run w hw c p Hc Hr Hp).
  destruct (peer_rates p) as [peer_rate peer_sleep_rate]. cbn [fst snd].
  case_write (sent w) Ea.
  - case_write (sent w ++ [(vote QCOM_SMD_RPM_ACTIVE_STATE c
                              (norm c peer_rate), 0)]) Es.
    + name_trace. right. right. easy.
    + name_trace. right. left. eexists. split; [exact Es |]. easy.
  - name_trace. left. eexists. split; [exact Ea |]. easy.
Qed.

Lemma set_rate_cases w hw c p rate parent_rate :
  clks w !! hw = Some c -> enabled c = true -> clks w !! peer c = Some p ->
  let a := vote QCOM_SMD_RPM_ACTIVE_STATE c
             (Z.max rate (fst (peer_rates p))) in
  let s := vote QCOM_SMD_RPM_SLEEP_STATE c
             (Z.max (if active_only c then 0 else rate) (snd (peer_rates p))) in
  exists ret w' tr,
    clk_smd_rpm_set_rate hw rate parent_rate w = Some (ret, w') /\
    sent w' = sent w ++ tr /\
    ((exists e, e <> 0 /\ tr = [(a, e)] /\ ret = e /\ clks w' = clks w) \/
     (exists e, e <> 0 /\ tr = [(a, 0); (s, e)] /\ ret = e /\
                clks w' = clks w) \/
     (tr = [(a, 0); (s, 0)] /\ ret = 0 /\
      clks w' = <[hw := set_rate rate c]> (clks w))).
Proof.
  intros Hc He Hp a s. subst a s.
  rewrite (set_rate_run w hw c p rate parent_rate Hc He Hp).
  destruct (peer_rates p) as [peer_rate peer_sleep_rate]. cbn [fst snd].
  case_write (sent w) Ea.
  - case_write (sent w ++ [(vote QCOM_SMD_RPM_ACTIVE_STATE c
                              (Z.max rate peer_rate), 0)]) Es.
    + name_trace. right. right. easy.
    + name_trace. right. left. eexists. split; [exact Es |]. easy.
  - name_trace. left. eexists. split; [exact Ea |]. easy.
Qed.

(** ** What the operations leave alone *)

Lemma set_enabled_same c : set_enabled (enabled c) c = c.
Proof. now destruct c. Qed.

Lemma set_rate_same c : set_rate (rate c) c = c.
Proof. now destruct c. Qed.

Lemma insert_same_clock (m : gmap Z clk_smd_rpm) hw c :
  m !! hw = Some c -> m = <[hw := c]> m.
Proof. intros H. symmetry. now apply insert_id. Qed.

Lemma prepare_frame w hw c p :
  clks w !! hw = Some c -> clks w !! peer c = Some p ->
  exists ret w' tr b,
    clk_smd_rpm_prepare hw w = Some (ret, w') /\
    sent w' = sent w ++ tr /\
    clks w' = <[hw := set_enabled b c]> (clks w).
Proof.
  intros Hc Hp.
  pose proof (insert_same_clock (clks w) hw c Hc) as Hid.
  rewrite <- (set_enabled_same c) in Hid at 1.
  destruct (Z.eq_dec (rate c) 0) as [Hr | Hr].
  - rewrite (prepare_run_unset w hw c Hc Hr).
    exists 0, (World (<[hw := set_enabled true c]> (clks w)) (sent w)), [], true.
    cbn [sent clks]. now rewrite app_nil_r.
  - destruct (prepare_cases w hw c p Hc Hr Hp)
      as (ret & w' & tr & Hrun & Hsent & Hcase).
    destruct Hcase as [(e & _ & _ & _ & Hk) | [(_ & _ & Hk) | (e & e' & _ & _ & _ & Hk)]].
    + exists ret, w', tr, (enabled c). now rewrite Hk.
    + exists ret, w', tr, true. easy.
    + destruct (e' =? 0).
      * exists ret, w', tr, true. easy.
      * exists ret, w', tr, (enabled c). now rewrite Hk.
Qed.

Lemma unprepare_frame w hw c p :
  clks w !! hw = Some c -> clks w !! peer c = Some p ->
  exists u w' tr b,
    clk_smd_rpm_unprepare hw w = Some (u, w') /\
    sent w' = sent w ++ tr /\
    clks w' = <[hw := set_enabled b c]> (clks w).
Proof.
  intros Hc Hp.
  pose proof (insert_same_clock (clks w) hw c Hc) as Hid.
  rewrite <- (set_enabled_same c) in Hid at 1.
  destruct (Z.eq_dec (rate c) 0) as [Hr | Hr].
  - rewrite (unprepare_run_unset w hw c Hc Hr).
    exists tt, w, [], (enabled c). now rewrite app_nil_r.
  - destruct (unprepare_cases w hw c p Hc Hr Hp)
      as (u & w' & tr & Hrun & Hsent & Hcase).
    destruct Hcase as [(e & _ & _ & Hk) | [(e & _ & _ & Hk) | (_ & Hk)]].
    + exists u, w', tr, (enabled c). now rewrite Hk.
    + exists u, w', tr, (enabled c). now rewrite Hk.
    + exists u, w', tr, false. easy.
Qed.

Lemma set_rate_frame w hw c p rate parent_rate :
  clks w !! hw = Some c -> clks w !! peer c = Some p ->
  exists ret w' tr v,
    clk_smd_rpm_set_rate hw rate parent_rate w = Some (ret, w') /\
    sent w' = sent w ++ tr /\
    clks w' = <[hw := set_rate v c]> (clks w).
Proof.
  intros Hc Hp.
  pose proof (insert_same_clock (clks w) hw c Hc) as Hid.
  rewrite <- (set_rate_same c) in Hid at 1.
  destruct (enabled c) eqn:He.
  - destruct (set_rate_cases w hw c p rate parent_rate Hc He Hp)
      as (ret & w' & tr & Hrun & Hsent & Hcase).
    destruct Hcase as [(e & _ & _ & _ & Hk) | [(e & _ & _ & _ & Hk) | (_ & _ & Hk)]].
    + exists ret, w', tr, (rate_field c). now rewrite Hk.
    + exists ret, w', tr, (rate_field c). now rewrite Hk.
    + exists ret, w', tr, rate. easy.
  - rewrite (set_rate_run_disabled w hw c rate parent_rate Hc He).
    exists 0, w, [], (rate_field c). now rewrite app_nil_r.
Qed.

(** X1.  Prepare and unprepare of a clock write nothing but the [enabled]
    flag of that clock, set-rate nothing but its [rate]: every other
    field, the peer link among them, and every other clock stay as they
    were; the calls made before stay on record. *)
Theorem lifecycle_writes_one_field w hw c p rate parent_rate :
  clks w !! hw = Some c -> clks w !! peer c = Some p ->
  (exists ret w' tr b,
      clk_smd_rpm_prepare hw w = Some (ret, w') /\
      sent w' = sent w ++ tr /\
      clks w' = <[hw := set_enabled b c]> (clks w)) /\
  (exists u w' tr b,
      clk_smd_rpm_unprepare hw w = Some (u, w') /\
      sent w' = sent w ++ tr /\
      clks w' = <[hw := set_enabled b c]> (clks w)) /\
  (exists ret w' tr v,
      clk_smd_rpm_set_rate hw rate parent_rate w = Some (ret, w') /\
      sent w' = sent w ++ tr /\
      clks w' = <[hw := set_rate v c]> (clks w)).
Proof.
  intros Hc Hp. split; [| split].
  - exact (prepare_frame w hw c p Hc Hp).
  - exact (unprepare_frame w hw c p Hc Hp).
  - exact (set_rate_frame w hw c p rate parent_rate Hc Hp).
Qed.

Lemma linked_peer (m : gmap Z clk_smd_rpm) hw c :
  linked m -> m !! hw = Some c -> exists p, m !! peer c = Some p.
Proof.
  intros Hl Hc. specialize (Hl hw c Hc).
  destruct (m !! peer c) as [p |]; [now exists p | discriminate].
Qed.

Lemma linked_insert (m : gmap Z clk_smd_rpm) hw c c' :
  linked m -> m !! hw = Some c -> peer c' = peer c ->
  linked (<[hw := c']> m).
Proof.
  intros Hl Hc Hpeer q d Hq.
  assert (Hd : exists d0, m !! q = Some d0 /\ peer d = peer d0).
  { destruct (decide (hw = q)) as [-> | Hne].
    - rewrite lookup_insert_eq in Hq. injection Hq as <-. now exists c.
    - rewrite lookup_insert_ne in Hq by exact Hne. now exists d. }
  destruct Hd as (d0 & Hd0 & ->).
  specialize (Hl q d0 Hd0).
  destruct (decide (hw = peer d0)) as [E | Hne].
  - rewrite <- E. rewrite lookup_insert_eq. cbn.
    rewrite <- E in Hl.
    assert (Hl' : peer <$> Some c = Some q) by (rewrite <- Hc; exact Hl).
    cbn in Hl'. now rewrite Hpeer.
  - now rewrite lookup_insert_ne.
Qed.

(** X2.  Where every clock is linked to a peer that links back, prepare,
    unprepare and set-rate of any clock run to their end (no address
    without a clock is read), and the clocks are linked in the same way
    afterwards. *)
Theorem lifecycle_keeps_clocks_linked w hw rate parent_rate :
  linked (clks w) -> is_Some (clks w !! hw) ->
  (exists ret w',
      clk_smd_rpm_prepare hw w = Some (ret, w') /\ linked (clks w')) /\
  (exists u w',
      clk_smd_rpm_unprepare hw w = Some (u, w') /\ linked (clks w')) /\
  (exists ret w',
      clk_smd_rpm_set_rate hw rate parent_rate w = Some (ret, w') /\
      linked (clks w')).
Proof.
  intros Hl [c Hc]. destruct (linked_peer _ hw c Hl Hc) as [p Hp].
  split; [| split].
  - destruct (prepare_frame w hw c p Hc Hp) as (ret & w' & tr & b & Hrun & _ & Hk).
    exists ret, w'. split; [exact Hrun |]. rewrite Hk.
    now apply (linked_insert _ hw c).
  - destruct (unprepare_frame w hw c p Hc Hp) as (u & w' & tr & b & Hrun & _ & Hk).
    exists u, w'. split; [exact Hrun |]. rewrite Hk.
    now apply (linked_insert _ hw c).
  - destruct (set_rate_frame w hw c p rate parent_rate Hc Hp)
      as (ret & w' & tr & v & Hrun & _ & Hk).
    exists ret, w'. split; [exact Hrun |]. rewrite Hk.
    now apply (linked_insert _ hw c).
Qed.

(** ** Where the votes go and what they carry *)

Lemma vote_addressed st c x : addressed_to c (vote st c x).
Proof. repeat split. Qed.

(** X3.  Every call that prepare, unprepare and set-rate of a clock make
    concerns that clock's own resource: it goes to the clock's RPM handle
    with the clock's resource type and id, and its buffer has 12 bytes,
    the clock's key first and the length 4 second.  The peer's rate enters
    the value, never the address. *)
Theorem lifecycle_votes_own_resource w hw c p rate parent_rate :
  clks w !! hw = Some c -> clks w !! peer c = Some p ->
  (exists ret w' tr,
      clk_smd_rpm_prepare hw w = Some (ret, w') /\
      sent w' = sent w ++ tr /\
      Forall (fun e => addressed_to c (fst e)) tr) /\
  (exists u w' tr,
      clk_smd_rpm_unprepare hw w = Some (u, w') /\
      sent w' = sent w ++ tr /\
      Forall (fun e => addressed_to c (fst e)) tr) /\
  (exists ret w' tr,
      clk_smd_rpm_set_rate hw rate parent_rate w = Some (ret, w') /\
      sent w' = sent w ++ tr /\
      Forall (fun e => addressed_to c (fst e)) tr).
Proof.
  intros Hc Hp. split; [| split].
  - destruct (Z.eq_dec (rate_field c) 0) as [Hr | Hr].
    + rewrite (prepare_run_unset w hw c Hc Hr).
      do 2 eexists. exists []. split; [reflexivity |]. cbn [sent].
      split; [now rewrite app_nil_r | constructor].
    + destruct (prepare_cases w hw c p Hc Hr Hp)
        as (ret & w' & tr & Hrun & Hsent & Hcase).
      exists ret, w', tr. split; [exact Hrun |]. split; [exact Hsent |].
      destruct Hcase as [(e & _ & -> & _) | [(-> & _) | (e & e' & _ & -> & _)]];
        repeat constructor.
  - destruct (Z.eq_dec (rate_field c) 0) as [Hr | Hr].
    + rewrite (unprepare_run_unset w hw c Hc Hr).
      do 2 eexists. exists []. split; [reflexivity |].
      split; [now rewrite app_nil_r | constructor].
    + destruct (unprepare_cases w hw c p Hc Hr Hp)
        as (u & w' & tr & Hrun & Hsent & Hcase).
      exists u, w', tr. split; [exact Hrun |]. split; [exact Hsent |].
      destruct Hcase as [(e & _ & -> & _) | [(e & _ & -> & _) | (-> & _)]];
        repeat constructor.
  - destruct (enabled c) eqn:He.
    + destruct (set_rate_cases w hw c p rate parent_rate Hc He Hp)
        as (ret & w' & tr & Hrun & Hsent & Hcase).
      exists ret, w', tr. split; [exact Hrun |]. split; [exact Hsent |].
      destruct Hcase as [(e & _ & -> & _) | [(e & _ & -> & _) | (-> & _)]];
        repeat constructor.
    + rewrite (set_rate_run_disabled w hw c rate parent_rate Hc He).
      do 2 eexists. exists []. split; [reflexivity |].
      split; [now rewrite app_nil_r | constructor].
Qed.

(** The value field of a vote, for any rate. *)
Lemma voted_value_vote st c x :
  voted_value (vote st c x) = DIV_ROUND_UP x 1000 mod 2 ^ 32.
Proof.
  unfold voted_value, vote, buf_value. cbn [msg_buf].
  change (drop 8 (cpu_to_le32 (rpm_key c) ++ cpu_to_le32 4 ++
                  cpu_to_le32 (DIV_ROUND_UP x 1000)))
    with (cpu_to_le32 (DIV_ROUND_UP x 1000)).
  apply le32_to_cpu_of_cpu.
Qed.

Lemma voted_value_in_range st c x :
  in_range x ->
  voted_value (vote st c x) = DIV_ROUND_UP x 1000 /\
  x <= 1000 * voted_value (vote st c x) < x + 1000.
Proof.
  intros (H0 & Hfit & H32).
  pose proof (DIV_ROUND_UP_ceil x H0 Hfit) as Hceil.
  rewrite voted_value_vote. rewrite Z.mod_small by lia. easy.
Qed.

Lemma voted_value_zero st c : voted_value (vote st c 0) = 0.
Proof.
  rewrite voted_value_vote. unfold DIV_ROUND_UP.
  change (0 + 1000 - 1) with 999.
  pose proof (Z.pow_nonneg 2 BITS_PER_LONG ltac:(lia)) as Hm.
  set (m := 2 ^ BITS_PER_LONG) in *.
  assert (H : 0 <= 999 mod m <= 999).
  { destruct (Z.eq_dec m 0) as [E | E].
    - rewrite E, Z.mod_0_r. lia.
    - assert (Hpos : 0 < m) by lia.
      pose proof (Z.mod_pos_bound 999 m Hpos).
      pose proof (Z.mod_le 999 m ltac:(lia) Hpos). lia. }
  rewrite Z.div_small by lia. reflexivity.
Qed.

(** Votes grow with the rate, within the range. *)
Lemma voted_value_le st st' c x y :
  0 <= x <= y -> x = y \/ in_range y ->
  voted_value (vote st c x) <= voted_value (vote st' c y).
Proof.
  intros Hxy [-> | Hy].
  - rewrite !voted_value_vote. lia.
  - assert (Hx : in_range x) by (unfold in_range in *; lia).
    destruct (voted_value_in_range st c x Hx) as [_ Hvx].
    destruct (voted_value_in_range st' c y Hy) as [_ Hvy].
    lia.
Qed.

Lemma voted_value_one st c :
  1000 < 2 ^ BITS_PER_LONG -> voted_value (vote st c 1) = 1.
Proof.
  intros H. rewrite voted_value_vote. unfold DIV_ROUND_UP.
  change (1 + 1000 - 1) with 1000. rewrite (Z.mod_small 1000) by lia.
  reflexivity.
Qed.

Lemma notnot_cases x : notnot x = 0 /\ x = 0 \/ notnot x = 1 /\ x <> 0.
Proof.
  unfold notnot. destruct (x =? 0) eqn:E.
  - left. apply Z.eqb_eq in E. easy.
  - right. apply Z.eqb_neq in E. easy.
Qed.

Lemma peer_rates_bounds p :
  rate p = 0 \/ in_range (rate p) ->
  0 <= snd (peer_rates p) <= fst (peer_rates p) /\
  (fst (peer_rates p) = 0 \/ in_range (fst (peer_rates p))).
Proof.
  unfold peer_rates, in_range.
  destruct (enabled p), (active_only p); cbn [fst snd]; lia.
Qed.

Lemma agg_plain x y x' y' :
  0 <= x' <= x -> 0 <= y' <= y ->
  x = 0 \/ in_range x -> y = 0 \/ in_range y ->
  0 <= Z.max x' y' <= Z.max x y /\
  (Z.max x' y' = Z.max x y \/ in_range (Z.max x y)).
Proof. unfold in_range. lia. Qed.

Lemma agg_norm c x y x' y' :
  0 <= x' <= x -> 0 <= y' <= y ->
  x = 0 \/ in_range x -> y = 0 \/ in_range y ->
  0 <= norm c (Z.max x' y') <= norm c (Z.max x y) /\
  (norm c (Z.max x' y') = norm c (Z.max x y) \/
   in_range (norm c (Z.max x y))).
Proof.
  intros Hx Hy Hrx Hry. unfold norm. destruct (branch c).
  - destruct (notnot_cases (Z.max x' y')) as [[-> ?] | [-> ?]],
             (notnot_cases (Z.max x y)) as [[-> ?] | [-> ?]];
      unfold in_range in *; lia.
  - now apply agg_plain.
Qed.

(** The first two votes of a trace that starts with the votes [a], [s]. *)
Lemma sleep_at_most_active_intro c x y tr rest :
  0 <= y <= x -> y = x \/ in_range x ->
  (tr = [] \/
   (exists e, tr = [(vote QCOM_SMD_RPM_ACTIVE_STATE c x, e)]) \/
   (exists e e', tr = (vote QCOM_SMD_RPM_ACTIVE_STATE c x, e)
                      :: (vote QCOM_SMD_RPM_SLEEP_STATE c y, e') :: rest)) ->
  sleep_at_most_active tr.
Proof.
  intros Hyx Hr [-> | [(e & ->) | (e & e' & ->)]] ma ea ms es H0 H1;
    cbn in H0, H1; try discriminate.
  injection H0 as <- <-. injection H1 as <- <-.
  split; [reflexivity |]. split; [reflexivity |].
  now apply voted_value_le.
Qed.

(** X4.  With rates in the range that is sent as it is, the value voted
    for the sleep set by a prepare, an unprepare or a set-rate is never
    above the value the same operation voted for the active set. *)
Theorem sleep_vote_at_most_active_vote w hw c p rate parent_rate :
  clks w !! hw = Some c -> clks w !! peer c = Some p ->
  in_range (rate_field c) -> in_range (rate_field p) -> in_range rate ->
  (exists ret w' tr,
      clk_smd_rpm_prepare hw w = Some (ret, w') /\
      sent w' = sent w ++ tr /\ sleep_at_most_active tr) /\
  (exists u w' tr,
      clk_smd_rpm_unprepare hw w = Some (u, w') /\
      sent w' = sent w ++ tr /\ sleep_at_most_active tr) /\
  (exists ret w' tr,
      clk_smd_rpm_set_rate hw rate parent_rate w = Some (ret, w') /\
      sent w' = sent w ++ tr /\ sleep_at_most_active tr).
Proof.
  intros Hc Hp Rc Rp Rr.
  destruct (peer_rates_bounds p (or_intror Rp)) as [Hps Hpa].
  assert (Hsl : forall x, in_range x ->
            0 <= (if active_only c then 0 else x) <= x)
    by (intros x Hx; unfold in_range in Hx; destruct (active_only c); lia).
  split; [| split].
  - destruct (Z.eq_dec (rate_field c) 0) as [Hr | Hr].
    + rewrite (prepare_run_unset w hw c Hc Hr).
      do 2 eexists. exists []. split; [reflexivity |]. cbn [sent].
      split; [now rewrite app_nil_r |]. intros ? ? ? ? H; discriminate H.
    + destruct (prepare_cases w hw c p Hc Hr Hp)
        as (ret & w' & tr & Hrun & Hsent & Hcase).
      exists ret, w', tr. split; [exact Hrun |]. split; [exact Hsent |].
      destruct (agg_norm c _ _ _ _ (Hsl _ Rc) Hps (or_intror Rc) Hpa)
        as [Hle Hin].
      destruct Hcase as [(e & _ & -> & _) | [(-> & _) | (e & e' & _ & -> & _)]];
        (eapply sleep_at_most_active_intro; [exact Hle | exact Hin |]);
        first [ right; left; eexists; reflexivity
              | right; right; do 2 eexists; reflexivity ].
  - destruct (Z.eq_dec (rate_field c) 0) as [Hr | Hr].
    + rewrite (unprepare_run_unset w hw c Hc Hr).
      do 2 eexists. exists []. split; [reflexivity |].
      split; [now rewrite app_nil_r |]. intros ? ? ? ? H; discriminate H.
    + destruct (unprepare_cases w hw c p Hc Hr Hp)
        as (u & w' & tr & Hrun & Hsent & Hcase).
      exists u, w', tr. split; [exact Hrun |]. split; [exact Hsent |].
      assert (H0 : 0 <= 0 <= 0) by lia.
      destruct (agg_norm c 0 _ 0 _ H0 Hps (or_introl eq_refl) Hpa)
        as [Hle Hin].
      rewrite !Z.max_r in Hle, Hin by lia.
      eapply (sleep_at_most_active_intro c _ _ tr []); [exact Hle | exact Hin |].
      destruct Hcase as [(e & _ & -> & _) | [(e & _ & -> & _) | (-> & _)]];
        first [ right; left; eexists; reflexivity
              | right; right; do 2 eexists; reflexivity ].
  - destruct (enabled c) eqn:He.
    + destruct (set_rate_cases w hw c p rate parent_rate Hc He Hp)
        as (ret & w' & tr & Hrun & Hsent & Hcase).
      exists ret, w', tr. split; [exact Hrun |]. split; [exact Hsent |].
      destruct (agg_plain _ _ _ _ (Hsl _ Rr) Hps (or_intror Rr) Hpa)
        as [Hle Hin].
      eapply (sleep_at_most_active_intro c _ _ tr []); [exact Hle | exact Hin |].
      destruct Hcase as [(e & _ & -> & _) | [(e & _ & -> & _) | (-> & _)]];
        first [ right; left; eexists; reflexivity
              | right; right; do 2 eexists; reflexivity ].
    + rewrite (set_rate_run_disabled w hw c rate parent_rate Hc He).
      do 2 eexists. exists []. split; [reflexivity |].
      split; [now rewrite app_nil_r |]. intros ? ? ? ? H; discriminate H.
  Unshelve. all: exact [].
Qed.

(** X5.  The two regular votes of a branch clock carry 0 or 1, whatever
    the rates are: prepare votes 1 for the active set and 0 or 1 for the
    sleep set, unprepare votes 0 or 1 for both.  (The third call of
    prepare, after a failed sleep vote, is not among them.) *)
Theorem branch_votes_are_zero_or_one w hw c p :
  clks w !! hw = Some c -> clks w !! peer c = Some p ->
  branch c = true -> 1000 < 2 ^ BITS_PER_LONG ->
  0 < rate c -> 0 <= rate p ->
  (exists ret w' tr,
      clk_smd_rpm_prepare hw w = Some (ret, w') /\
      sent w' = sent w ++ tr /\
      (forall m e, tr !! 0%nat = Some (m, e) -> voted_value m = 1) /\
      (forall m e, tr !! 1%nat = Some (m, e) ->
                   voted_value m = 0 \/ voted_value m = 1)) /\
  (exists u w' tr,
      clk_smd_rpm_unprepare hw w = Some (u, w') /\
      sent w' = sent w ++ tr /\
      (forall i m e, tr !! i = Some (m, e) ->
                     voted_value m = 0 \/ voted_value m = 1)).
Proof.
  intros Hc Hp Hb Hbits Hrc Hrp.
  assert (Hr : rate c <> 0) by lia.
  assert (Hv : forall st x, voted_value (vote st c (norm c x)) = 0 \/
                            voted_value (vote st c (norm c x)) = 1).
  { intros st x. unfold norm. rewrite Hb.
    destruct (notnot_cases x) as [[-> _] | [-> _]].
    - left. apply voted_value_zero.
    - right. now apply voted_value_one. }
  assert (Hpa : 0 <= fst (peer_rates p))
    by (unfold peer_rates; destruct (enabled p), (active_only p);
        cbn [fst]; lia).
  split.
  - destruct (prepare_cases w hw c p Hc Hr Hp)
      as (ret & w' & tr & Hrun & Hsent & Hcase).
    exists ret, w', tr. split; [exact Hrun |]. split; [exact Hsent |].
    assert (Ha : forall st,
              voted_value (vote st c (norm c (Z.max (rate c)
                                                (fst (peer_rates p))))) = 1).
    { intros st. unfold norm. rewrite Hb.
      destruct (notnot_cases (Z.max (rate c) (fst (peer_rates p))))
        as [[_ E] | [-> _]]; [lia |]. now apply voted_value_one. }
    destruct Hcase as [(e & _ & -> & _) | [(-> & _) | (e & e' & _ & -> & _)]];
      (split; intros m0 e0 H; cbn in H;
       first [ discriminate H
             | injection H as <- <-; first [apply Ha | apply Hv] ]).
  - destruct (unprepare_cases w hw c p Hc Hr Hp)
      as (u & w' & tr & Hrun & Hsent & Hcase).
    exists u, w', tr. split; [exact Hrun |]. split; [exact Hsent |].
    destruct Hcase as [(e & _ & -> & _) | [(e & _ & -> & _) | (-> & _)]];
      intros i m0 e0 H;
      repeat (destruct i as [| i]; cbn in H; try discriminate H;
              try (injection H as <- <-; apply Hv)).
Qed.

(** ** Runs with a transport that accepts every call *)

Section Accepting.

Hypothesis accepts : forall l m, qcom_rpm_smd_write l m = 0.

Lemma prepare_accepted w hw c p :
  clks w !! hw = Some c -> rate c <> 0 -> clks w !! peer c = Some p ->
  clk_smd_rpm_prepare hw w =
    Some (0, World (<[hw := set_enabled true c]> (clks w))
                   (sent w ++
                    [ (vote QCOM_SMD_RPM_ACTIVE_STATE c
                         (norm c (Z.max (rate c) (fst (peer_rates p)))), 0);
                      (vote QCOM_SMD_RPM_SLEEP_STATE c
                         (norm c (Z.max (if active_only c then 0 else rate c)
                                        (snd (peer_rates p)))), 0) ])).
Proof.
  intros Hc Hr Hp. rewrite (prepare_run w hw c p Hc Hr Hp).
  destruct (peer_rates p) as [peer_rate peer_sleep_rate]. cbn [fst snd].
  unfold submit. rewrite !accepts. cbn [Z.eqb negb sent clks].
  now rewrite <- app_assoc.
Qed.

Lemma unprepare_accepted w hw c p :
  clks w !! hw = Some c -> rate c <> 0 -> clks w !! peer c = Some p ->
  clk_smd_rpm_unprepare hw w =
    Some (tt, World (<[hw := set_enabled false c]> (clks w))
                    (sent w ++
                     [ (vote QCOM_SMD_RPM_ACTIVE_STATE c
                          (norm c (fst (peer_rates p))), 0);
                       (vote QCOM_SMD_RPM_SLEEP_STATE c
                          (norm c (snd (peer_rates p))), 0) ])).
Proof.
  intros Hc Hr Hp. rewrite (unprepare_run w hw c p Hc Hr Hp).
  destruct (peer_rates p) as [peer_rate peer_sleep_rate]. cbn [fst snd].
  unfold submit. rewrite !accepts. cbn [Z.eqb negb sent clks].
  now rewrite <- app_assoc.
Qed.

(** X6.  With a transport that accepts every call, prepare followed by
    unprepare of a clock that has a rate, is not enabled and is not its
    own peer makes four calls, the last two voting what the peer alone
    asks for, and leaves every clock as it was. *)
Theorem prepare_then_unprepare_restores w hw c p :
  clks w !! hw = Some c -> enabled c = false -> rate c <> 0 ->
  clks w !! peer c = Some p -> peer c <> hw ->
  exists w' a s,
    (clk_smd_rpm_prepare hw ;; clk_smd_rpm_unprepare hw) w = Some (tt, w') /\
    clks w' = clks w /\
    sent w' = sent w ++
      [ (a, 0); (s, 0);
        (vote QCOM_SMD_RPM_ACTIVE_STATE c (norm c (fst (peer_rates p))), 0);
        (vote QCOM_SMD_RPM_SLEEP_STATE c (norm c (snd (peer_rates p))), 0) ].
Proof.
  intros Hc He Hr Hp Hne.
  do 3 eexists. split.
  { erewrite bind_run by (apply (prepare_accepted w hw c p Hc Hr Hp)).
    apply (unprepare_accepted _ hw (set_enabled true c) p).
    - cbn [clks]. apply lookup_insert_eq.
    - exact Hr.
    - cbn [clks peer set_enabled]. rewrite lookup_insert_ne by congruence.
      exact Hp. }
  cbn [clks sent]. split.
  - rewrite insert_insert_eq.
    replace (set_enabled false (set_enabled true c)) with c
      by (destruct c; cbn in He; subst; reflexivity).
    now apply insert_id.
  - rewrite <- app_assoc. reflexivity.
Qed.

Lemma vote_same_resource st c p x :
  same_resource c p -> vote st c x = vote st p x.
Proof. intros (H1 & H2 & H3 & H4 & _). unfold vote. now rewrite H1, H2, H3, H4. Qed.

Lemma norm_same_resource c p x : same_resource c p -> norm c x = norm p x.
Proof. intros (_ & _ & _ & _ & H). unfold norm. now rewrite H. Qed.

(** X7.  With a transport that accepts every call: two clocks that are
    each other's peer, are both enabled, both have a rate that is not 0,
    and share the RPM handle, the resource type and id, the key and the
    branch flag, send the same two messages when prepared from the same
    state, and both prepares return 0.  The joined vote does not depend on
    which of the two asks.  (A clock whose rate is 0 sends nothing when
    prepared, so the rates are asked to be set.) *)
Theorem prepare_votes_symmetric w hc hp c p :
  clks w !! hc = Some c -> clks w !! hp = Some p ->
  peer c = hp -> peer p = hc ->
  enabled c = true -> enabled p = true ->
  rate c <> 0 -> rate p <> 0 -> same_resource c p ->
  exists wc wp tr,
    clk_smd_rpm_prepare hc w = Some (0, wc) /\
    clk_smd_rpm_prepare hp w = Some (0, wp) /\
    length tr = 2%nat /\
    sent wc = sent w ++ tr /\ sent wp = sent w ++ tr.
Proof.
  intros Hc Hp Hcp Hpc Ec Ep Rc Rp Hsame.
  rewrite <- Hcp in Hp. pose proof Hc as Hc'. rewrite <- Hpc in Hc'.
  rewrite (prepare_accepted w hc c p Hc Rc Hp).
  rewrite Hcp in Hp.
  rewrite (prepare_accepted w hp p c Hp Rp Hc').
  do 3 eexists. split; [reflexivity |]. split; [reflexivity |].
  cbn [sent]. split; [| split; [reflexivity |]]; [reflexivity |].
  unfold peer_rates. rewrite Ec, Ep. cbn [fst snd].
  rewrite <- !(vote_same_resource _ c p _ Hsame).
  rewrite <- !(norm_same_resource c p _ Hsame).
  rewrite (Z.max_comm (rate p) (rate c)).
  rewrite (Z.max_comm (if active_only p then 0 else rate p)).
  reflexivity.
Qed.

(** X8.  With a transport that accepts every call: two distinct clocks
    that are each other's peer and share the RPM handle, the resource type
    and id, the key and the branch flag; the first has a rate that is not
    0, the second is enabled and has a positive rate.  Unprepare of the
    first followed by prepare of the second returns 0 and makes four
    calls: the two votes of the unprepare are the two votes the peer sends
    when it is prepared next.  What the unprepare leaves at the RPM is the
    peer's own vote.  (An unprepare of a clock whose rate is 0 sends
    nothing, so the rate of the first clock is asked to be set.) *)
Theorem unprepare_leaves_votes_of_peer w hc hp c p :
  clks w !! hc = Some c -> clks w !! hp = Some p ->
  peer c = hp -> peer p = hc -> hc <> hp ->
  enabled p = true -> rate c <> 0 -> 0 < rate p -> same_resource c p ->
  exists w' a s,
    (clk_smd_rpm_unprepare hc ;; clk_smd_rpm_prepare hp) w = Some (0, w') /\
    sent w' = sent w ++ [(a, 0); (s, 0); (a, 0); (s, 0)] /\
    clks w' = <[hp := set_enabled true p]>
                (<[hc := set_enabled false c]> (clks w)).
Proof.
  intros Hc Hp Hcp Hpc Hne Ep Rc Rp Hsame.
  assert (Rp' : rate p <> 0) by lia.
  pose proof Hp as Hp'. rewrite <- Hcp in Hp'.
  do 3 eexists. split.
  { erewrite bind_run by (apply (unprepare_accepted w hc c p Hc Rc Hp')).
    apply (prepare_accepted _ hp p (set_enabled false c)).
    - cbn [clks]. rewrite lookup_insert_ne by exact Hne. exact Hp.
    - exact Rp'.
    - cbn [clks]. rewrite Hpc. apply lookup_insert_eq. }
  cbn [clks sent]. split; [| reflexivity].
  rewrite <- app_assoc. cbn [app].
  unfold peer_rates. rewrite Ep. cbn [enabled set_enabled fst snd].
  rewrite <- !(vote_same_resource _ c p _ Hsame).
  rewrite <- !(norm_same_resource c p _ Hsame).
  rewrite (Z.max_l (rate p) 0) by lia.
  rewrite (Z.max_l (if active_only p then 0 else rate p) 0)
    by (destruct (active_only p); lia).
  reflexivity.
Qed.

End Accepting.

(** ** Reading the rate back *)

(** X9.  After a set-rate, recalc-rate returns the new rate when the
    clock is enabled and set-rate returned 0, and the rate as it was
    before in every other case: a refused vote and a clock that is not
    enabled both leave the old rate in place. *)
Theorem recalc_rate_after_set_rate w hw c p rate parent_rate parent_rate' :
  clks w !! hw = Some c -> clks w !! peer c = Some p ->
  exists ret w',
    clk_smd_rpm_set_rate hw rate parent_rate w = Some (ret, w') /\
    clk_smd_rpm_recalc_rate hw parent_rate' w'
    = Some (if enabled c && (ret =? 0) then rate else rate_field c, w').
Proof.
  intros Hc Hp. unfold clk_smd_rpm_recalc_rate, to_clk_smd_rpm.
  destruct (enabled c) eqn:He; cbn [andb].
  - destruct (set_rate_cases w hw c p rate parent_rate Hc He Hp)
      as (ret & w' & tr & Hrun & _ & Hcase).
    exists ret, w'. split; [exact Hrun |].
    destruct Hcase as [(e & Hne & _ & -> & Hk) | [(e & Hne & _ & -> & Hk) | (_ & -> & Hk)]].
    + apply Z.eqb_neq in Hne. rewrite Hne.
      apply rd_run. now rewrite Hk.
    + apply Z.eqb_neq in Hne. rewrite Hne.
      apply rd_run. now rewrite Hk.
    + cbn [Z.eqb].
      refine (rd_run rate_field hw (set_rate rate c) w' _).
      rewrite Hk. apply lookup_insert_eq.
  - rewrite (set_rate_run_disabled w hw c rate parent_rate Hc He).
    exists 0, w. split; [reflexivity |]. now apply rd_run.
Qed.

(** Round-rate sends nothing and writes nothing.  It returns the rate
    asked for as it is up to [LONG_MAX]; an [unsigned long] rate above
    [LONG_MAX] comes back as a negative [long]. *)
Lemma round_rate_returns_rate w hw rate parent_rate :
  0 <= rate < 2 ^ BITS_PER_LONG ->
  exists r,
    clk_smd_rpm_round_rate hw rate parent_rate w = Some (r, w) /\
    (rate < 2 ^ (BITS_PER_LONG - 1) -> r = rate) /\
    (2 ^ (BITS_PER_LONG - 1) <= rate -> r < 0).
Proof.
  intros Hr. exists (to_long rate). split; [reflexivity |].
  unfold to_long. destruct (rate <? 2 ^ (BITS_PER_LONG - 1)) eqn:E.
  - apply Z.ltb_lt in E. split; [reflexivity | lia].
  - apply Z.ltb_ge in E. split; lia.
Qed.

(** ** The request on the wire, for any rate *)

Lemma cpu_to_le32_bytes x : Forall (fun b => 0 <= b < 256) (cpu_to_le32 x).
Proof.
  unfold cpu_to_le32. change 255 with (Z.ones 8).
  repeat constructor; rewrite Z.land_ones by lia;
    apply Z.mod_pos_bound; lia.
Qed.

(** X10.  Whatever the rate, in range or not, the buffer of a vote is 12
    bytes, each from 0 to 255, and its value field holds the rate plus 999,
    reduced to [unsigned long], divided by 1000 and reduced to 32 bits;
    the active-set and the sleep-set vote are built alike. *)
Theorem vote_buffer_for_any_rate r c rate w :
  clks w !! r = Some c ->
  exists ma ms,
    clk_smd_rpm_set_rate_active r rate w = Some (submit ma w) /\
    clk_smd_rpm_set_rate_sleep r rate w = Some (submit ms w) /\
    msg_buf ma = msg_buf ms /\
    length (msg_buf ma) = 12%nat /\
    Forall (fun b => 0 <= b < 256) (msg_buf ma) /\
    voted_value ma
    = ((rate + 999) mod 2 ^ BITS_PER_LONG / 1000) mod 2 ^ 32.
Proof.
  intros Hc.
  exists (vote QCOM_SMD_RPM_ACTIVE_STATE c rate),
         (vote QCOM_SMD_RPM_SLEEP_STATE c rate).
  split; [now apply set_rate_active_run |].
  split; [now apply set_rate_sleep_run |].
  split; [reflexivity |]. split; [reflexivity |]. split.
  - cbn [vote msg_buf]. rewrite !Forall_app.
    repeat split; apply cpu_to_le32_bytes.
  - rewrite voted_value_vote. unfold DIV_ROUND_UP.
    replace (rate + 1000 - 1) with (rate + 999) by lia. reflexivity.
Qed.

(** ** Scaling enable, once more *)

(** X11.  The scaling-enable request returns 0 exactly when it made two
    calls and both returned 0.  Each call it makes goes to the RPM handle
    it was given, for the miscellaneous resource with the scaling-enable
    id, and carries the enable key, the length 4 and the value 1; no clock
    is written. *)
Theorem enable_scaling_zero_iff_both_accepted rpm w :
  exists ret w' tr,
    clk_smd_rpm_enable_scaling rpm w = Some (ret, w') /\
    sent w' = sent w ++ tr /\ clks w' = clks w /\
    (ret = 0 <-> map snd tr = [0; 0]) /\
    Forall (fun e =>
              msg_rpm (fst e) = rpm /\
              msg_type (fst e) = QCOM_SMD_RPM_MISC_CLK /\
              msg_id (fst e) = QCOM_RPM_SCALING_ENABLE_ID /\
              msg_buf (fst e) = cpu_to_le32 QCOM_RPM_SMD_KEY_ENABLE ++
                                cpu_to_le32 4 ++ cpu_to_le32 1 /\
              msg_count (fst e) = 12 /\
              voted_value (fst e) = 1) tr.
Proof.
  unfold clk_smd_rpm_enable_scaling.
  unfold mbind, M_bind, mret, M_ret, smd_write, req_bytes.
  cbn beta iota zeta. cbn [key nbytes value sent clks].
  destruct (Z.eq_dec (qcom_rpm_smd_write (sent w)
              (scaling_msg rpm QCOM_SMD_RPM_SLEEP_STATE)) 0) as [Es | Es].
  - unfold scaling_msg in Es. rewrite !Es. cbn [Z.eqb negb].
    cbn beta. cbn [sent clks].
    match goal with
    | |- context [negb (?r =? 0)] => destruct (Z.eq_dec r 0) as [Ea | Ea]
    end.
    + rewrite !Ea. cbn [Z.eqb negb].
      do 3 eexists. split; [reflexivity |]. cbn [sent clks].
      split; [now rewrite <- app_assoc |]. split; [reflexivity |].
      cbn [app map snd]. split; [easy |].
      repeat constructor.
    + pose proof Ea as Ea'. apply Z.eqb_neq in Ea'. rewrite Ea'.
      cbn [negb].
      do 3 eexists. split; [reflexivity |]. cbn [sent clks].
      split; [now rewrite <- app_assoc |]. split; [reflexivity |].
      cbn [app map snd]. split; [split; intros H; congruence |].
      repeat constructor.
  - pose proof Es as Es'. unfold scaling_msg in Es'.
    apply Z.eqb_neq in Es'. rewrite Es'. cbn [negb].
    do 3 eexists. split; [reflexivity |]. cbn [sent clks].
    split; [reflexivity |]. split; [reflexivity |].
    cbn [map snd]. split; [split; intros H; [contradiction | discriminate H] |].
    repeat constructor.
Qed.

(** ** The probe *)

Lemma insert_set_rpm (m : gmap Z clk_smd_rpm) h q c :
  m !! q = Some c -> <[q := set_rpm h c]> m = alter (set_rpm h) q m.
Proof.
  intros H. apply map_eq. intros i.
  destruct (decide (q = i)) as [-> | Hne].
  - rewrite lookup_insert_eq, lookup_alter_eq, H. reflexivity.
  - rewrite lookup_insert_ne, lookup_alter_ne by exact Hne. reflexivity.
Qed.

Lemma bound_app h qs qs' (m : gmap Z clk_smd_rpm) :
  bound h (qs ++ qs') m = bound h qs' (bound h qs m).
Proof. unfold bound. apply foldl_app. Qed.

(** The clocks of the table are bound to the handle, no other field and
    no other clock is written. *)
Lemma lookup_bound h qs (m : gmap Z clk_smd_rpm) q :
  bound h qs m !! q =
    if decide (q <> 0 /\ q ∈ qs) then set_rpm h <$> m !! q else m !! q.
Proof.
  revert m. induction qs as [| q0 qs IH]; intros m.
  - cbn. case_decide as H; [| reflexivity].
    destruct H as [_ Hin]. now apply not_elem_of_nil in Hin.
  - change (bound h (q0 :: qs) m)
      with (bound h qs (if q0 =? 0 then m else alter (set_rpm h) q0 m)).
    rewrite IH. destruct (q0 =? 0) eqn:E0.
    + apply Z.eqb_eq in E0. subst q0.
      repeat case_decide; try reflexivity;
        exfalso; rewrite ?elem_of_cons in *; intuition congruence.
    + apply Z.eqb_neq in E0.
      destruct (decide (q0 = q)) as [-> | Hne].
      * rewrite lookup_alter_eq.
        repeat case_decide; try reflexivity;
          try (exfalso; rewrite ?elem_of_cons in *; intuition congruence).
        destruct (m !! q) as [[] |]; reflexivity.
      * rewrite lookup_alter_ne by exact Hne.
        repeat case_decide; try reflexivity;
          exfalso; rewrite ?elem_of_cons in *; intuition congruence.
Qed.

Section Probe.

Variable k : kernel.

Lemma answered_cons before q log :
  answered k (before ++ [(q, devm_clk_register k before q)]) log ->
  answered k before ((q, devm_clk_register k before q) :: log).
Proof.
  intros H [| i] q' x' Hi.
  - injection Hi as <- <-. cbn [take]. now rewrite app_nil_r.
  - cbn [take]. rewrite (H i q' x' Hi), <- app_assoc. reflexivity.
Qed.

(** The array is the one the registrations give: two arrays that both
    fit the same registrations of a table are one. *)
Lemma registered_all_array h t s s' out out' :
  registered_all k h t s s' out -> registered_all k h t s s' out' ->
  out = out'.
Proof.
  intros (log & Hreg & _ & _ & _ & Hok & Hzip & _)
         (log' & Hreg' & _ & _ & _ & Hok' & Hzip' & _).
  rewrite Hreg in Hreg'. apply app_inv_head in Hreg'. subst log'.
  rewrite Hzip in Hzip'. clear Hreg Hzip log.
  revert out' Hok' Hzip'.
  induction Hok as [| q x t out Hx Hok IH]; intros out' Hok' Hzip';
    inversion Hok' as [| q' x' t' out1 Hx' Hok1]; subst; [reflexivity |].
  cbn [zip_with] in Hzip'. unfold entry_ok in Hx, Hx'.
  destruct (q =? 0) eqn:E0.
  - apply Z.eqb_eq in E0. subst q x x'.
    rewrite !filter_cons_False in Hzip'
      by (cbn [fst]; intros H; now apply H).
    f_equal. now apply IH.
  - apply Z.eqb_neq in E0.
    rewrite !filter_cons_True in Hzip' by exact E0.
    injection Hzip' as -> Hzip'. f_equal. now apply IH.
Qed.

Lemma probe_loop_cases rpm qs : forall out s,
  table_present qs s ->
  exists r s' done log,
    probe_loop k rpm qs out s = Some (r, s') /\
    sent (sys_world s') = sent (sys_world s) /\
    sys_provider s' = sys_provider s /\
    sys_registered s' = sys_registered s ++ log /\
    map fst log = filter (fun q => q <> 0) done /\
    clks (sys_world s') = bound rpm done (clks (sys_world s)) /\
    match r with
    | inr new =>
        done = qs /\ Forall (fun e => IS_ERR k (snd e) = false) log /\
        answered k (sys_registered s) log /\
        exists tail, new = out ++ tail /\ Forall2 (entry_ok k) qs tail /\
                     log = filter (fun e => fst e <> 0) (zip qs tail)
    | inl e =>
        exists pre q post x,
          qs = pre ++ q :: post /\ done = pre ++ [q] /\ q <> 0 /\
          last log = Some (q, x) /\ IS_ERR k x = true /\ e = PTR_ERR k x /\
          exists l, x = devm_clk_register k l q
    end.
Proof.
  induction qs as [| q rest IH]; intros out s Hpres.
  - exists (inr out), s, [], []. cbn [probe_loop].
    rewrite app_nil_r. repeat split; try reflexivity; try constructor.
    + intros i q x H. discriminate H.
    + exists []. rewrite app_nil_r.
      split; [reflexivity |]. split; [constructor | reflexivity].
  - apply Forall_cons in Hpres as [Hq Hrest]. cbn [probe_loop].
    destruct (q =? 0) eqn:E0.
    + apply Z.eqb_eq in E0. subst q.
      destruct (IH (out ++ [ERR_PTR k (- ENOENT k)]) s Hrest)
        as (r & s' & done & log & Hrun & Hsent & Hprov & Hreg & Hlog & Hclk & Hr).
      exists r, s', (0 :: done), log. split; [exact Hrun |].
      split; [exact Hsent |]. split; [exact Hprov |]. split; [exact Hreg |].
      split; [rewrite filter_cons_False by (intros H; now apply H); exact Hlog |].
      split; [exact Hclk |].
      destruct r as [e | new].
      * destruct Hr as (pre & q & post & x & -> & -> & Hr).
        exists (0 :: pre), q, post, x. easy.
      * destruct Hr as (-> & Hok & Hans & tail & -> & Htail & Hzip).
        split; [reflexivity |]. split; [exact Hok |].
        split; [exact Hans |].
        exists (ERR_PTR k (- ENOENT k) :: tail).
        split; [now rewrite <- app_assoc |].
        split; [constructor; [reflexivity | exact Htail] |].
        cbn [zip_with].
        rewrite filter_cons_False by (cbn [fst]; intros H; now apply H).
        exact Hzip.
    + apply Z.eqb_neq in E0. destruct (Hq E0) as [c Hc].
      rewrite (wr_run (set_rpm rpm) q c (sys_world s) Hc).
      cbn beta iota zeta.
      set (x := devm_clk_register k (sys_registered s) q).
      set (m1 := <[q := set_rpm rpm c]> (clks (sys_world s))).
      assert (Hm1 : m1 = bound rpm [q] (clks (sys_world s))).
      { unfold bound. cbn [foldl]. apply Z.eqb_neq in E0. rewrite E0.
        now apply insert_set_rpm. }
      destruct (IS_ERR k x) eqn:Ex.
      * exists (inl (PTR_ERR k x)), 
          (System (World m1 (sent (sys_world s)))
                  (sys_registered s ++ [(q, x)]) (sys_provider s)),
          [q], [(q, x)].
        cbn [sys_world sys_provider sys_registered sent clks map fst].
        rewrite filter_cons_True by exact E0.
        repeat split; try reflexivity; try exact Hm1.
        exists [], q, rest, x. repeat split; try easy. now exists (sys_registered s).
      * set (s1 := System (World m1 (sent (sys_world s)))
                          (sys_registered s ++ [(q, x)]) (sys_provider s)).
        assert (Hrest1 : table_present rest s1).
        { eapply Forall_impl; [exact Hrest |]. intros q' Hq' Hne.
          cbn [s1 sys_world clks]. unfold m1.
          destruct (decide (q = q')) as [-> | Hd].
          - rewrite lookup_insert_eq. eauto.
          - rewrite lookup_insert_ne by exact Hd. now apply Hq'. }
        destruct (IH (out ++ [x]) s1 Hrest1)
          as (r & s' & done & log & Hrun & Hsent & Hprov & Hreg & Hlog & Hclk & Hr).
        exists r, s', (q :: done), ((q, x) :: log).
        split; [exact Hrun |]. split; [exact Hsent |].
        split; [exact Hprov |].
        split; [rewrite Hreg; cbn [s1 sys_registered];
                now rewrite <- app_assoc |].
        split; [cbn [map fst]; rewrite filter_cons_True by exact E0;
                now rewrite Hlog |].
        split.
        { rewrite Hclk. cbn [s1 sys_world clks]. rewrite Hm1.
          change (q :: done) with ([q] ++ done). now rewrite bound_app. }
        destruct r as [e | new].
        -- destruct Hr as (pre & q' & post & x' & -> & -> & Hne & Hlast & Hr).
           exists (q :: pre), q', post, x'.
           repeat split; try easy.
           destruct log; [discriminate Hlast | exact Hlast].
        -- destruct Hr as (-> & Hok & Hans & tail & -> & Htail & Hzip).
           split; [reflexivity |].
           split; [constructor; [exact Ex | exact Hok] |].
           split; [exact (answered_cons (sys_registered s) q log Hans) |].
           exists (x :: tail). split; [now rewrite <- app_assoc |].
           split.
           ++ constructor; [| exact Htail].
              unfold entry_ok. apply Z.eqb_neq in E0. now rewrite E0.
           ++ cbn [zip_with].
              rewrite filter_cons_True by exact E0. f_equal. exact Hzip.
Qed.

Lemma enable_scaling_cases rpm w :
  let ms := scaling_msg rpm QCOM_SMD_RPM_SLEEP_STATE in
  let ma := scaling_msg rpm QCOM_SMD_RPM_ACTIVE_STATE in
  exists ret tr,
    clk_smd_rpm_enable_scaling rpm w
    = Some (ret, World (clks w) (sent w ++ tr)) /\
    ((ret <> 0 /\ (exists l m, ret = qcom_rpm_smd_write l m) /\
      (tr = [(ms, ret)] \/ tr = [(ms, 0); (ma, ret)])) \/
     (ret = 0 /\ tr = [(ms, 0); (ma, 0)])).
Proof.
  intros ms ma. unfold clk_smd_rpm_enable_scaling.
  unfold mbind, M_bind, mret, M_ret, smd_write, req_bytes.
  cbn beta iota zeta. cbn [key nbytes value sent clks].
  fold (scaling_msg rpm QCOM_SMD_RPM_SLEEP_STATE).
  fold (scaling_msg rpm QCOM_SMD_RPM_ACTIVE_STATE). fold ms ma.
  destruct (Z.eq_dec (qcom_rpm_smd_write (sent w) ms) 0) as [Es | Es].
  - rewrite !Es. cbn [Z.eqb negb]. cbn beta. cbn [sent clks].
    destruct (Z.eq_dec (qcom_rpm_smd_write (sent w ++ [(ms, 0)]) ma) 0)
      as [Ea | Ea].
    + rewrite !Ea. cbn [Z.eqb negb].
      exists 0, [(ms, 0); (ma, 0)]. rewrite <- app_assoc.
      split; [reflexivity |]. right. easy.
    + pose proof Ea as Ea'. apply Z.eqb_neq in Ea'. rewrite Ea'. cbn [negb].
      eexists _, [(ms, 0); (ma, _)]. rewrite <- app_assoc.
      split; [reflexivity |]. left. split; [exact Ea |].
      split; [eauto | now right].
  - pose proof Es as Es'. apply Z.eqb_neq in Es'. rewrite Es'. cbn [negb].
    eexists _, [(ms, _)]. split; [reflexivity |]. left.
    split; [exact Es |]. split; [eauto | now left].
Qed.

(** The probe, path by path. *)
Lemma probe_cases pdev s :
  (forall t, of_match_data pdev = Some t -> table_present t s) ->
  let rpm := parent_drvdata pdev in
  exists ret s',
    rpm_smd_clk_probe k pdev s = Some (ret, s') /\
    ((rpm = 0 /\ ret = - ENODEV k /\ s' = s) \/
     (of_match_data pdev = None /\ ret = - EINVAL k /\ s' = s) \/
     (exists t, of_match_data pdev = Some t /\
                devm_kzalloc k (length t) = false /\
                ret = - ENOMEM k /\ s' = s) \/
     (exists t pre q post x log,
         of_match_data pdev = Some t /\
         t = pre ++ q :: post /\ q <> 0 /\
         sys_registered s' = sys_registered s ++ log /\
         map fst log = filter (fun q => q <> 0) (pre ++ [q]) /\
         last log = Some (q, x) /\ IS_ERR k x = true /\ ret = PTR_ERR k x /\
         (exists l, x = devm_clk_register k l q) /\
         clks (sys_world s') = bound rpm (pre ++ [q]) (clks (sys_world s)) /\
         sent (sys_world s') = sent (sys_world s) /\
         sys_provider s' = sys_provider s) \/
     (exists t out,
         rpm <> 0 /\ of_match_data pdev = Some t /\
         registered_all k rpm t s s' out /\
         ((ret <> 0 /\ ret = of_clk_add_provider k out /\
           sent (sys_world s') = sent (sys_world s) /\
           sys_provider s' = sys_provider s) \/
          (of_clk_add_provider k out = 0 /\
           exists tr,
             sent (sys_world s') = sent (sys_world s) ++ tr /\
             ((ret <> 0 /\ (exists l m, ret = qcom_rpm_smd_write l m) /\
               (tr = [(scaling_msg rpm QCOM_SMD_RPM_SLEEP_STATE, ret)] \/
                tr = [(scaling_msg rpm QCOM_SMD_RPM_SLEEP_STATE, 0);
                      (scaling_msg rpm QCOM_SMD_RPM_ACTIVE_STATE, ret)]) /\
               sys_provider s' = None) \/
              (ret = 0 /\
               tr = [(scaling_msg rpm QCOM_SMD_RPM_SLEEP_STATE, 0);
                     (scaling_msg rpm QCOM_SMD_RPM_ACTIVE_STATE, 0)] /\
               sys_provider s' = Some out)))))).
Proof.
  intros Hpres rpm. unfold rpm_smd_clk_probe. fold rpm.
  destruct (Z.eq_dec rpm 0) as [E | E].
  { rewrite E. cbn [Z.eqb]. do 2 eexists. split; [reflexivity |]. now left. }
  pose proof E as E'. apply Z.eqb_neq in E'. rewrite E'.
  destruct (of_match_data pdev) as [t |] eqn:Ht.
  2:{ do 2 eexists. split; [reflexivity |]. right. left. easy. }
  destruct (devm_kzalloc k (length t)) eqn:Hk; cbn [negb].
  2:{ do 2 eexists. split; [reflexivity |]. right. right. left.
      exists t. easy. }
  destruct (probe_loop_cases rpm t [] s (Hpres t eq_refl))
    as (r & s1 & done & log & Hrun & Hsent & Hprov & Hreg & Hlog & Hclk & Hr).
  rewrite Hrun. destruct r as [e | out].
  - destruct Hr as (pre & q & post & x & -> & -> & Hq & Hlast & Hx & -> & Hl).
    do 2 eexists. split; [reflexivity |]. right. right. right. left.
    exists (pre ++ q :: post), pre, q, post, x, log. easy.
  - destruct Hr as (-> & Hok & Hans & tail & -> & Htail & Hzip). cbn [app].
    assert (Hall : forall w' p, registered_all k rpm t s
                     (System (World (clks (sys_world s1)) w')
                             (sys_registered s1) p) tail).
    { intros w' p. exists log. cbn [sys_registered sys_world clks]. easy. }
    destruct (Z.eq_dec (of_clk_add_provider k tail) 0) as [Ep | Ep].
    + rewrite Ep. cbn [Z.eqb negb sys_world].
      destruct (enable_scaling_cases rpm (sys_world s1))
        as (ret & tr & Hscal & Hcase).
      rewrite Hscal.
      destruct Hcase as [(Hne & Hwr & Htr) | (-> & Htr)].
      * pose proof Hne as Hne'. apply Z.eqb_neq in Hne'. rewrite Hne'.
        cbn [negb]. do 2 eexists. split; [reflexivity |].
        right. right. right. right. exists t, tail.
        split; [exact E |]. split; [reflexivity |]. split; [apply Hall |].
        right. split; [exact Ep |]. exists tr.
        cbn [sys_world sent sys_provider]. rewrite Hsent.
        split; [reflexivity |]. left. easy.
      * cbn [Z.eqb negb]. do 2 eexists. split; [reflexivity |].
        right. right. right. right. exists t, tail.
        split; [exact E |]. split; [reflexivity |]. split; [apply Hall |].
        right. split; [exact Ep |]. exists tr.
        cbn [sys_world sent sys_provider]. rewrite Hsent.
        split; [reflexivity |]. right. easy.
    + pose proof Ep as Ep'. apply Z.eqb_neq in Ep'. rewrite Ep'.
      cbn [negb]. do 2 eexists. split; [reflexivity |].
      right. right. right. right. exists t, tail.
      split; [exact E |]. split; [reflexivity |].
      split; [exists log; easy |]. left. easy.
Qed.

Lemma bound_lookup_in h t (m : gmap Z clk_smd_rpm) q :
  q ∈ t -> q <> 0 -> is_Some (m !! q) ->
  rpm <$> bound h t m !! q = Some h.
Proof.
  intros Hin Hq [c Hc]. rewrite lookup_bound.
  rewrite decide_True by easy. rewrite Hc. reflexivity.
Qed.

Lemma bound_lookup_out h t (m : gmap Z clk_smd_rpm) q :
  q ∉ t -> bound h t m !! q = m !! q.
Proof.
  intros Hout. rewrite lookup_bound.
  rewrite decide_False by (intros [_ Hin]; contradiction). reflexivity.
Qed.

(** X12.  When the RPM handle, the table and the memory are there, every
    registration gives a clock, the provider is accepted and the RPM
    accepts both scaling-enable calls, the probe returns 0.  Then every
    clock of the table holds the RPM handle, no clock outside the table is
    written, the provider is installed with the array of the clocks
    registered (slot [i] holds what [devm_clk_register] returned for entry
    [i] of the table, and [ERR_PTR (-ENOENT)] where the table has no
    clock), and the only calls made to the RPM are the two scaling-enable
    calls, sleep set first. *)
Theorem probe_binds_registers_enables pdev s t :
  (forall l m, qcom_rpm_smd_write l m = 0) ->
  parent_drvdata pdev <> 0 -> of_match_data pdev = Some t ->
  table_present t s -> devm_kzalloc k (length t) = true ->
  (forall l q, IS_ERR k (devm_clk_register k l q) = false) ->
  (forall out, of_clk_add_provider k out = 0) ->
  let h := parent_drvdata pdev in
  exists s' out,
    rpm_smd_clk_probe k pdev s = Some (0, s') /\
    registered_all k h t s s' out /\
    sys_provider s' = Some out /\
    sent (sys_world s') =
      sent (sys_world s) ++ [ (scaling_msg h QCOM_SMD_RPM_SLEEP_STATE, 0);
                              (scaling_msg h QCOM_SMD_RPM_ACTIVE_STATE, 0) ] /\
    (forall q, q ∈ t -> q <> 0 -> rpm <$> clks (sys_world s') !! q = Some h) /\
    (forall q, q ∉ t -> clks (sys_world s') !! q = clks (sys_world s) !! q).
Proof.
  intros Hacc Hh Ht Hpres Hmem Hreg Hprov h.
  destruct (probe_cases pdev s) as (ret & s' & Hrun & Hcase).
  { intros t' Ht'. rewrite Ht in Ht'. injection Ht' as <-. exact Hpres. }
  fold h in Hcase.
  destruct Hcase as [(E & _) | [(E & _) | [(t' & E & Hk & _) | [Hfail | Hall]]]].
  - contradiction.
  - rewrite Ht in E. discriminate E.
  - rewrite Ht in E. injection E as <-. rewrite Hmem in Hk. discriminate Hk.
  - destruct Hfail as (t' & pre & q & post & x & log & _ & _ & _ & _ & _ & _
                       & Hx & _ & (l & ->) & _).
    rewrite Hreg in Hx. discriminate Hx.
  - destruct Hall as (t' & out & _ & E & Hall & Hend).
    rewrite Ht in E. injection E as <-.
    destruct Hend as [(Hne & -> & _) | (_ & tr & Hsent & Hscal)].
    { exfalso. apply Hne. apply Hprov. }
    destruct Hscal as [(Hne & (l & m & ->) & _) | (-> & -> & Hp)].
    { exfalso. apply Hne. apply Hacc. }
    exists s', out. split; [exact Hrun |]. split; [exact Hall |].
    split; [exact Hp |]. split; [exact Hsent |].
    destruct Hall as (log & _ & _ & _ & _ & _ & _ & Hclk). rewrite Hclk.
    split.
    + intros q Hin Hq. apply bound_lookup_in; [exact Hin | exact Hq |].
      unfold table_present in Hpres. rewrite Forall_forall in Hpres.
      now apply Hpres.
    + intros q Hout. now apply bound_lookup_out.
Qed.

(** X13.  Whatever the kernel services and the RPM answer, the probe makes
    at most two calls to the RPM, and it makes none unless every clock of
    the table was bound and registered and [of_clk_add_provider] returned
    0 for the array of the clocks registered: a missing handle, table or
    memory, a failed registration and a refused provider all end the
    probe with the RPM untouched. *)
Theorem probe_calls_rpm_last pdev s :
  (forall t, of_match_data pdev = Some t -> table_present t s) ->
  exists ret s' tr,
    rpm_smd_clk_probe k pdev s = Some (ret, s') /\
    sent (sys_world s') = sent (sys_world s) ++ tr /\
    (length tr <= 2)%nat /\
    (tr <> [] ->
     exists t out,
       of_match_data pdev = Some t /\
       registered_all k (parent_drvdata pdev) t s s' out /\
       of_clk_add_provider k out = 0).
Proof.
  intros Hpres.
  destruct (probe_cases pdev s Hpres) as (ret & s' & Hrun & Hcase).
  assert (Hnil : sent (sys_world s') = sent (sys_world s) ->
            exists tr, sent (sys_world s') = sent (sys_world s) ++ tr /\
              (length tr <= 2)%nat /\
              (tr <> [] -> exists t out,
                 of_match_data pdev = Some t /\
                 registered_all k (parent_drvdata pdev) t s s' out /\
                 of_clk_add_provider k out = 0)).
  { intros H. exists []. rewrite app_nil_r.
    split; [exact H |]. split; [cbn; lia | congruence]. }
  exists ret, s'.
  destruct Hcase as [(_ & _ & ->) | [(_ & _ & ->) | [(t' & _ & _ & _ & ->) | [Hfail | Hall]]]].
  - destruct (Hnil eq_refl) as (tr & H). now exists tr.
  - destruct (Hnil eq_refl) as (tr & H). now exists tr.
  - destruct (Hnil eq_refl) as (tr & H). now exists tr.
  - destruct Hfail as (t' & pre & q & post & x & log & _ & _ & _ & _ & _ & _
                       & _ & _ & _ & _ & Hsent & _).
    destruct (Hnil Hsent) as (tr & H). now exists tr.
  - destruct Hall as (t & out & _ & Ht & Hall & Hend).
    destruct Hend as [(_ & _ & Hsent & _) | (Hp & tr & Hsent & Hscal)].
    + destruct (Hnil Hsent) as (tr & H). now exists tr.
    + exists tr. split; [exact Hrun |]. split; [exact Hsent |]. split.
      * destruct Hscal as [(_ & _ & [-> | ->] & _) | (_ & -> & _)]; cbn; lia.
      * intros _. now exists t, out.
Qed.

(** X14.  Starting without a provider, and with errnos and error pointers
    that are not 0, the probe returns 0 exactly when it leaves a provider
    installed.  So a provider that was added is removed again when the
    scaling-enable request fails afterwards. *)
Theorem probe_zero_iff_provider pdev s :
  (forall t, of_match_data pdev = Some t -> table_present t s) ->
  sys_provider s = None ->
  ENODEV k <> 0 -> EINVAL k <> 0 -> ENOMEM k <> 0 ->
  (forall x, IS_ERR k x = true -> PTR_ERR k x <> 0) ->
  exists ret s',
    rpm_smd_clk_probe k pdev s = Some (ret, s') /\
    (ret = 0 <-> is_Some (sys_provider s')) /\
    (ret <> 0 <-> sys_provider s' = None).
Proof.
  intros Hpres Hnone Hdev Hinv Hmem Herr.
  destruct (probe_cases pdev s Hpres) as (ret & s' & Hrun & Hcase).
  exists ret, s'. split; [exact Hrun |].
  assert (Hno : ret <> 0 -> sys_provider s' = None ->
            (ret = 0 <-> is_Some (sys_provider s')) /\
            (ret <> 0 <-> sys_provider s' = None)).
  { intros Hne Hp. rewrite Hp. split; split; intros H; try easy.
    destruct H as [? H]. discriminate H. }
  destruct Hcase as [(_ & -> & ->) | [(_ & -> & ->) | [(t' & _ & _ & -> & ->) | [Hfail | Hall]]]].
  - apply Hno; [lia | exact Hnone].
  - apply Hno; [lia | exact Hnone].
  - apply Hno; [lia | exact Hnone].
  - destruct Hfail as (t' & pre & q & post & x & log & _ & _ & _ & _ & _ & _
                       & Hx & -> & _ & _ & _ & Hp).
    apply Hno; [now apply Herr | now rewrite Hp].
  - destruct Hall as (t & out & _ & _ & _ & Hend).
    destruct Hend as [(Hne & _ & _ & Hp) | (_ & tr & _ & Hscal)].
    + apply Hno; [exact Hne | now rewrite Hp].
    + destruct Hscal as [(Hne & _ & _ & Hp) | (-> & _ & Hp)].
      * now apply Hno.
      * rewrite Hp. split; split; intros H; first [easy | now eexists].
Qed.



End Probe.

End Driver.

(** ** The operations on sample clocks *)

(** C1.  Prepare of [xo] with a transport that accepts the active vote and
    refuses the sleep vote with [-EIO]: one more active vote is sent, and
    prepare returns what that vote returns.  When it is accepted prepare
    returns 0, not [-EIO], and the clock is marked enabled; when it is
    refused with [-ETIMEDOUT] prepare returns [-ETIMEDOUT]. *)
Theorem prepare_returns_outcome_of_undo_vote :
  let undone := clk_smd_rpm_prepare 64 (scripted [0; - EIO; 0]) 1 boot in
  let undo_failed :=
    clk_smd_rpm_prepare 64 (scripted [0; - EIO; - ETIMEDOUT]) 1 boot in
  enabled_after (Some (tt, boot)) 1 = Some false /\
  calls undone = [ (QCOM_SMD_RPM_ACTIVE_STATE, 1, 0);
                   (QCOM_SMD_RPM_SLEEP_STATE, 1, - EIO);
                   (QCOM_SMD_RPM_ACTIVE_STATE, 0, 0) ] /\
  returned undone = Some 0 /\
  enabled_after undone 1 = Some true /\
  calls undo_failed = [ (QCOM_SMD_RPM_ACTIVE_STATE, 1, 0);
                        (QCOM_SMD_RPM_SLEEP_STATE, 1, - EIO);
                        (QCOM_SMD_RPM_ACTIVE_STATE, 0, - ETIMEDOUT) ] /\
  returned undo_failed = Some (- ETIMEDOUT) /\
  enabled_after undo_failed 1 = Some false.
Proof. repeat split; vm_compute; reflexivity. Qed.

(** C2.  Prepare and then unprepare of [bus], whose rate is 0: no vote is
    sent, nothing fails, and after the unprepare the clock is still marked
    enabled; a set-rate that follows votes for the unprepared clock. *)
Theorem unprepare_without_rate_keeps_enabled :
  let t := scripted [] in
  let prepared := clk_smd_rpm_prepare 64 t 3 boot in
  let unprepared :=
    (clk_smd_rpm_prepare 64 t 3 ;; clk_smd_rpm_unprepare 64 t 3) boot in
  let then_set :=
    (clk_smd_rpm_prepare 64 t 3 ;; clk_smd_rpm_unprepare 64 t 3 ;;
     clk_smd_rpm_set_rate 64 t 3 100000000 0) boot in
  rate bus = 0 /\
  enabled_after (Some (tt, boot)) 3 = Some false /\
  returned prepared = Some 0 /\
  enabled_after prepared 3 = Some true /\
  returned unprepared = Some tt /\
  calls unprepared = [] /\
  enabled_after unprepared 3 = Some true /\
  calls then_set = [ (QCOM_SMD_RPM_ACTIVE_STATE, 100000, 0);
                     (QCOM_SMD_RPM_SLEEP_STATE, 100000, 0) ].
Proof. repeat split; vm_compute; reflexivity. Qed.

(** C4.  Prepare of [xo_a], then prepare of the branch clock [xo] whose
    sleep vote is refused.  The vote that takes the active set back is
    sent with the peer's rate as it is and carries 19200 kHz; collapsed
    as a branch vote it would carry 1, which is what the active set held
    before and what unprepare of [xo] votes for the same peer. *)
Theorem undo_vote_of_branch_not_collapsed :
  let t := scripted [0; 0; 0; - EIO; 0] in
  let run := (clk_smd_rpm_prepare 64 t 2 ;; clk_smd_rpm_prepare 64 t 1) boot in
  let ok := scripted [] in
  let cycle :=
    (clk_smd_rpm_prepare 64 ok 2 ;; clk_smd_rpm_prepare 64 ok 1 ;;
     clk_smd_rpm_unprepare 64 ok 1) boot in
  branch xo = true /\
  calls run = [ (QCOM_SMD_RPM_ACTIVE_STATE, 1, 0);
                (QCOM_SMD_RPM_SLEEP_STATE, 0, 0);
                (QCOM_SMD_RPM_ACTIVE_STATE, 1, 0);
                (QCOM_SMD_RPM_SLEEP_STATE, 1, - EIO);
                (QCOM_SMD_RPM_ACTIVE_STATE, 19200, 0) ] /\
  DIV_ROUND_UP 64 (norm xo (fst (peer_rates (set_enabled true xo_a)))) 1000
  = 1 /\
  calls cycle = [ (QCOM_SMD_RPM_ACTIVE_STATE, 1, 0);
                  (QCOM_SMD_RPM_SLEEP_STATE, 0, 0);
                  (QCOM_SMD_RPM_ACTIVE_STATE, 1, 0);
                  (QCOM_SMD_RPM_SLEEP_STATE, 1, 0);
                  (QCOM_SMD_RPM_ACTIVE_STATE, 1, 0);
                  (QCOM_SMD_RPM_SLEEP_STATE, 0, 0) ].
Proof. repeat split; vm_compute; reflexivity. Qed.

(** C3 as stated fails at unprepare.  Unprepare of the running [bus] with
    a transport that refuses the first vote, once with [-EIO] and once with [-ETIMEDOUT]: the caller
    gets back the same both times, no value and the clocks as they were.
    So nothing the caller gets back tells which error the vote failed
    with. *)
Lemma unprepare_cannot_report_error :
  let run e := clk_smd_rpm_unprepare 64 (scripted [e]) 3 bus_running in
  calls (run (- EIO)) = [(QCOM_SMD_RPM_ACTIVE_STATE, 0, - EIO)] /\
  calls (run (- ETIMEDOUT)) = [(QCOM_SMD_RPM_ACTIVE_STATE, 0, - ETIMEDOUT)] /\
  observed (run (- EIO)) = Some (tt, clks bus_running) /\
  observed (run (- ETIMEDOUT)) = Some (tt, clks bus_running) /\
  ~ exists report : option (unit * gmap Z clk_smd_rpm) -> Z,
      report (observed (run (- EIO))) = - EIO /\
      report (observed (run (- ETIMEDOUT))) = - ETIMEDOUT.
Proof.
  cbv zeta.
  assert (H1 :
    observed (clk_smd_rpm_unprepare 64 (scripted [- EIO]) 3 bus_running)
    = Some (tt, clks bus_running)) by (vm_compute; reflexivity).
  assert (H2 :
    observed (clk_smd_rpm_unprepare 64 (scripted [- ETIMEDOUT]) 3 bus_running)
    = Some (tt, clks bus_running)) by (vm_compute; reflexivity).
  split; [vm_compute; reflexivity |].
  split; [vm_compute; reflexivity |].
  split; [exact H1 |]. split; [exact H2 |].
  intros [report [Ha Hb]]. rewrite H1 in Ha. rewrite H2 in Hb.
  rewrite Ha in Hb. discriminate Hb.
Qed.

(** C9 as stated fails for large rates.  On a 64-bit kernel, set-rate of
    the running [bus] to 4294967296000 Hz:
    both votes carry the value 0, which is not that rate in kHz rounded
    up (4294967296 does not fit the 32-bit field). *)
Lemma huge_rate_vote_is_not_ceil :
  let rate := 4294967296000 in
  let run := clk_smd_rpm_set_rate 64 (scripted []) 3 rate 0 bus_running in
  0 <= rate < 2 ^ 64 /\
  returned run = Some 0 /\
  calls run = [ (QCOM_SMD_RPM_ACTIVE_STATE, 0, 0);
                (QCOM_SMD_RPM_SLEEP_STATE, 0, 0) ] /\
  ~ (rate <= 1000 * 0 < rate + 1000).
Proof.
  cbv zeta. split; [lia |].
  split; [vm_compute; reflexivity |].
  split; [vm_compute; reflexivity | lia].
Qed.

(** [bus_running] is where prepare and set-rate to 100 MHz of [bus] lead
    from [boot]. *)
Lemma bus_running_reached :
  observed ((clk_smd_rpm_prepare 64 (scripted []) 3 ;;
             clk_smd_rpm_set_rate 64 (scripted []) 3 100000000 0) boot)
  = Some (0, clks bus_running).
Proof. vm_compute. reflexivity. Qed.

(** The scaling-enable request with the sleep-set call refused, and with
    both calls accepted. *)
Lemma enable_scaling_runs :
  let refused :=
    clk_smd_rpm_enable_scaling (scripted [- EIO]) KEY_ENABLE MISC_CLK
      SCALING_ENABLE_ID 100 boot in
  let accepted :=
    clk_smd_rpm_enable_scaling (scripted []) KEY_ENABLE MISC_CLK
      SCALING_ENABLE_ID 100 boot in
  returned refused = Some (- EIO) /\
  calls refused = [(QCOM_SMD_RPM_SLEEP_STATE, 1, - EIO)] /\
  returned accepted = Some 0 /\
  calls accepted = [ (QCOM_SMD_RPM_SLEEP_STATE, 1, 0);
                     (QCOM_SMD_RPM_ACTIVE_STATE, 1, 0) ].
Proof. repeat split; vm_compute; reflexivity. Qed.

(** ** The theorems at sample clocks *)

(** Prepare of [bus], whose rate is 0, at boot. *)
Lemma prepare_unset_rate_votes_nothing_witness :
  clks boot !! 3 = Some bus /\ rate bus = 0 /\
  exists w',
    clk_smd_rpm_prepare 64 (scripted []) 3 boot = Some (0, w') /\
    sent w' = sent boot /\
    enabled <$> clks w' !! 3 = Some true.
Proof.
  split; [reflexivity |]. split; [reflexivity |].
  apply (prepare_unset_rate_votes_nothing 64 (scripted []) boot 3 bus);
    reflexivity.
Defined.

(** Set-rate of [xo], not enabled, at boot. *)
Lemma set_rate_disabled_is_noop_witness :
  clks boot !! 1 = Some xo /\ enabled xo = false /\
  clk_smd_rpm_set_rate 64 (scripted []) 1 38400000 0 boot = Some (0, boot).
Proof.
  split; [reflexivity |]. split; [reflexivity |].
  apply (set_rate_disabled_is_noop 64 (scripted []) boot 1 xo);
    reflexivity.
Defined.

(** Set-rate of the running [bus] to 200 MHz, the sleep vote refused. *)
Lemma set_rate_commits_iff_both_votes_succeed_witness :
  let w := bus_running in
  let t := scripted [0; - EIO] in
  let a := vote 64 QCOM_SMD_RPM_ACTIVE_STATE bus_on
             (Z.max 200000000 (fst (peer_rates bus_a))) in
  let s := vote 64 QCOM_SMD_RPM_SLEEP_STATE bus_on
             (Z.max (if active_only bus_on then 0 else 200000000)
                    (snd (peer_rates bus_a))) in
  clks w !! 3 = Some bus_on /\ enabled bus_on = true /\
  clks w !! peer bus_on = Some bus_a /\
  exists ret w' tr,
    clk_smd_rpm_set_rate 64 t 3 200000000 0 w = Some (ret, w') /\
    sent w' = sent w ++ tr /\
    ((exists e, e <> 0 /\ tr = [(a, e)] /\ ret = e /\ clks w' = clks w) \/
     (exists e, e <> 0 /\ tr = [(a, 0); (s, e)] /\ ret = e /\
                clks w' = clks w) \/
     (tr = [(a, 0); (s, 0)] /\ ret = 0 /\
      clks w' = <[3 := set_rate 200000000 bus_on]> (clks w))).
Proof.
  cbv zeta.
  split; [reflexivity |]. split; [reflexivity |]. split; [reflexivity |].
  apply (set_rate_commits_iff_both_votes_succeed 64 (scripted [0; - EIO])
           bus_running 3 bus_on bus_a 200000000 0); reflexivity.
Defined.

(** The three operations on [xo] at boot, the second call refused. *)
Lemma lifecycle_votes_active_first_witness :
  let w := boot in
  let t := scripted [0; - EIO; 0] in
  clks w !! 1 = Some xo /\ clks w !! peer xo = Some xo_a /\
  (exists ret w' tr,
      clk_smd_rpm_prepare 64 t 1 w = Some (ret, w') /\
      sent w' = sent w ++ tr /\ active_before_sleep false tr = true) /\
  (exists u w' tr,
      clk_smd_rpm_unprepare 64 t 1 w = Some (u, w') /\
      sent w' = sent w ++ tr /\ active_before_sleep false tr = true) /\
  (exists ret w' tr,
      clk_smd_rpm_set_rate 64 t 1 38400000 0 w = Some (ret, w') /\
      sent w' = sent w ++ tr /\ active_before_sleep false tr = true).
Proof.
  cbv zeta. split; [reflexivity |]. split; [reflexivity |].
  apply (lifecycle_votes_active_first 64 (scripted [0; - EIO; 0])
           boot 1 xo xo_a 38400000 0); reflexivity.
Defined.

(** The three operations on the running [bus], the second call refused. *)
Lemma vote_failure_ends_operation_witness :
  let w := bus_running in
  let t := scripted [0; - EIO] in
  clks w !! 3 = Some bus_on /\ clks w !! peer bus_on = Some bus_a /\
  (exists ret w' tr,
      clk_smd_rpm_set_rate 64 t 3 200000000 0 w = Some (ret, w') /\
      sent w' = sent w ++ tr /\
      ((length tr <= 2)%nat /\
       forall i m e, tr !! i = Some (m, e) -> e <> 0 ->
                     S i = length tr /\ ret = e)) /\
  (exists ret w' tr,
      clk_smd_rpm_prepare 64 t 3 w = Some (ret, w') /\
      sent w' = sent w ++ tr /\
      ((length tr <= 3)%nat /\
       (forall m e, tr !! 0%nat = Some (m, e) -> e <> 0 ->
                    length tr = 1%nat /\ ret = e) /\
       (forall m e, tr !! 1%nat = Some (m, e) ->
                    (e <> 0 <-> length tr = 3%nat)) /\
       (forall m e, tr !! 2%nat = Some (m, e) ->
                    msg_state m = QCOM_SMD_RPM_ACTIVE_STATE))) /\
  (exists u w' tr,
      clk_smd_rpm_unprepare 64 t 3 w = Some (u, w') /\
      sent w' = sent w ++ tr /\
      ((length tr <= 2)%nat /\
       forall i m e, tr !! i = Some (m, e) -> e <> 0 ->
                     S i = length tr /\ clks w' = clks w)).
Proof.
  cbv zeta. split; [reflexivity |]. split; [reflexivity |].
  apply (vote_failure_ends_operation 64 (scripted [0; - EIO])
           bus_running 3 bus_on bus_a 200000000 0); reflexivity.
Defined.

(** A vote of 19.2 MHz for [xo] on a 64-bit kernel. *)
Lemma vote_payload_is_key_len_khz_witness :
  let t := scripted [] in
  clks boot !! 1 = Some xo /\
  0 <= 19200000 /\ 19200000 + 999 < 2 ^ 64 /\
  19200000 <= 1000 * (2 ^ 32 - 1) /\
  exists ma ms v,
    clk_smd_rpm_set_rate_active 64 t 1 19200000 boot
    = Some (submit t ma boot) /\
    clk_smd_rpm_set_rate_sleep 64 t 1 19200000 boot
    = Some (submit t ms boot) /\
    msg_state ma = QCOM_SMD_RPM_ACTIVE_STATE /\
    msg_state ms = QCOM_SMD_RPM_SLEEP_STATE /\
    msg_buf ms = msg_buf ma /\ msg_count ma = 12 /\ msg_count ms = 12 /\
    length (msg_buf ma) = 12%nat /\
    msg_buf ma = cpu_to_le32 (rpm_key xo) ++ cpu_to_le32 4 ++ cpu_to_le32 v /\
    le32_to_cpu (take 4 (msg_buf ma)) = rpm_key xo mod 2 ^ 32 /\
    le32_to_cpu (take 4 (drop 4 (msg_buf ma))) = 4 /\
    voted_value ma = v /\
    19200000 <= 1000 * v < 19200000 + 1000 /\
    v = 19200.
Proof.
  cbv zeta. split; [reflexivity |].
  split; [lia |]. split; [lia |]. split; [lia |].
  destruct (vote_payload_is_key_len_khz 64 (scripted []) 1 xo 19200000 boot
              eq_refl)
    as (ma & ms & v & H1 & H2 & H3 & H4 & H5 & H6 & H7 & H8 & H9 & H10
        & H11 & H12 & _ & _ & Hin).
  destruct (Hin ltac:(lia) ltac:(lia) ltac:(lia)) as (Hceil & H19 & _).
  exists ma, ms, v.
  do 12 (split; [assumption |]).
  split; [exact Hceil | exact (H19 eq_refl)].
Defined.

(** ** The further theorems at sample clocks *)

Lemma linked_boot : linked (clks boot).
Proof.
  change (map_Forall (fun q c => peer <$> clks boot !! peer c = Some q)
                     (clks boot)).
  unfold boot at 2. cbn [clks].
  do 4 (apply map_Forall_insert_2; [vm_compute; reflexivity |]).
  apply map_Forall_empty.
Qed.

Lemma in_range_sample x :
  0 <= x <= 200000000 -> in_range 64 x.
Proof. unfold in_range. lia. Qed.

Lemma table_present_rpmcc : table_present [1; 2; 0; 3; 4] at_boot.
Proof.
  unfold table_present.
  repeat (apply Forall_cons; split;
          [ intros Hne;
            first [ exfalso; now apply Hne
                  | vm_compute; eexists; reflexivity ] |]).
  constructor.
Qed.

Lemma rpmcc_present t :
  of_match_data rpmcc = Some t -> table_present t at_boot.
Proof. intros H. injection H as <-. exact table_present_rpmcc. Qed.

Lemma linux_registers l q :
  IS_ERR linux (devm_clk_register linux l q) = false.
Proof. cbn. apply andb_false_iff. right. apply Z.ltb_ge. lia. Qed.

Lemma linux_error_pointers x : IS_ERR linux x = true -> PTR_ERR linux x <> 0.
Proof.
  cbn. intros H. apply andb_true_iff in H as [_ H].
  apply Z.ltb_lt in H. lia.
Qed.


(** Prepare of [xo] at boot, the sleep vote refused. *)
Lemma lifecycle_writes_one_field_witness :
  clks boot !! 1 = Some xo /\ clks boot !! peer xo = Some xo_a /\
  exists ret w' tr b,
    clk_smd_rpm_prepare 64 (scripted [0; - EIO]) 1 boot = Some (ret, w') /\
    sent w' = sent boot ++ tr /\
    clks w' = <[1 := set_enabled b xo]> (clks boot).
Proof.
  split; [reflexivity |]. split; [reflexivity |].
  apply (lifecycle_writes_one_field 64 (scripted [0; - EIO]) boot 1 xo xo_a
           38400000 0); reflexivity.
Defined.

Lemma lifecycle_keeps_clocks_linked_witness :
  linked (clks boot) /\ is_Some (clks boot !! 1) /\
  exists ret w',
    clk_smd_rpm_prepare 64 (scripted [0; - EIO]) 1 boot = Some (ret, w') /\
    linked (clks w').
Proof.
  split; [exact linked_boot |]. split; [now exists xo |].
  apply (lifecycle_keeps_clocks_linked 64 (scripted [0; - EIO]) boot 1
           38400000 0); [exact linked_boot | now exists xo].
Defined.

Lemma lifecycle_votes_own_resource_witness :
  clks boot !! 1 = Some xo /\ clks boot !! peer xo = Some xo_a /\
  exists ret w' tr,
    clk_smd_rpm_prepare 64 (scripted [0; - EIO]) 1 boot = Some (ret, w') /\
    sent w' = sent boot ++ tr /\
    Forall (fun e => addressed_to xo (fst e)) tr.
Proof.
  split; [reflexivity |]. split; [reflexivity |].
  apply (lifecycle_votes_own_resource 64 (scripted [0; - EIO]) boot 1 xo xo_a
           38400000 0); reflexivity.
Defined.

Lemma sleep_vote_at_most_active_vote_witness :
  clks xo_both !! 2 = Some (set_enabled true xo_a) /\
  clks xo_both !! peer xo_a = Some (set_enabled true xo) /\
  in_range 64 19200000 /\ in_range 64 38400000 /\
  exists u w' tr,
    clk_smd_rpm_unprepare 64 accepting 2 xo_both = Some (u, w') /\
    sent w' = sent xo_both ++ tr /\ sleep_at_most_active tr.
Proof.
  split; [reflexivity |]. split; [reflexivity |].
  split; [apply in_range_sample; lia |].
  split; [apply in_range_sample; lia |].
  apply (sleep_vote_at_most_active_vote 64 accepting xo_both 2
           (set_enabled true xo_a) (set_enabled true xo) 38400000 0);
    first [reflexivity | apply in_range_sample; cbn; lia].
Defined.

Lemma branch_votes_are_zero_or_one_witness :
  clks boot !! 1 = Some xo /\ clks boot !! peer xo = Some xo_a /\
  branch xo = true /\ 1000 < 2 ^ 64 /\ 0 < rate xo /\ 0 <= rate xo_a /\
  exists ret w' tr,
    clk_smd_rpm_prepare 64 accepting 1 boot = Some (ret, w') /\
    sent w' = sent boot ++ tr /\
    (forall m e, tr !! 0%nat = Some (m, e) -> voted_value m = 1) /\
    (forall m e, tr !! 1%nat = Some (m, e) ->
                 voted_value m = 0 \/ voted_value m = 1).
Proof.
  split; [reflexivity |]. split; [reflexivity |]. split; [reflexivity |].
  split; [lia |]. split; [cbn; lia |]. split; [cbn; lia |].
  apply (branch_votes_are_zero_or_one 64 accepting boot 1 xo xo_a);
    first [reflexivity | lia | cbn; lia].
Defined.

Lemma prepare_then_unprepare_restores_witness :
  (forall l m, accepting l m = 0) /\
  clks boot !! 1 = Some xo /\ enabled xo = false /\ rate xo <> 0 /\
  clks boot !! peer xo = Some xo_a /\ peer xo <> 1 /\
  exists w' a s,
    (clk_smd_rpm_prepare 64 accepting 1 ;;
     clk_smd_rpm_unprepare 64 accepting 1) boot = Some (tt, w') /\
    clks w' = clks boot /\
    sent w' = sent boot ++
      [ (a, 0); (s, 0);
        (vote 64 QCOM_SMD_RPM_ACTIVE_STATE xo
           (norm xo (fst (peer_rates xo_a))), 0);
        (vote 64 QCOM_SMD_RPM_SLEEP_STATE xo
           (norm xo (snd (peer_rates xo_a))), 0) ].
Proof.
  split; [reflexivity |]. split; [reflexivity |]. split; [reflexivity |].
  split; [cbn; lia |]. split; [reflexivity |]. split; [cbn; lia |].
  apply (prepare_then_unprepare_restores 64 accepting
           (fun _ _ => eq_refl) boot 1 xo xo_a);
    first [reflexivity | cbn; lia].
Defined.

Lemma prepare_votes_symmetric_witness :
  let c := set_enabled true xo in
  let p := set_enabled true xo_a in
  clks xo_both !! 1 = Some c /\ clks xo_both !! 2 = Some p /\
  peer c = 2 /\ peer p = 1 /\ enabled c = true /\ enabled p = true /\
  rate c <> 0 /\ rate p <> 0 /\ same_resource c p /\
  exists wc wp tr,
    clk_smd_rpm_prepare 64 accepting 1 xo_both = Some (0, wc) /\
    clk_smd_rpm_prepare 64 accepting 2 xo_both = Some (0, wp) /\
    length tr = 2%nat /\
    sent wc = sent xo_both ++ tr /\ sent wp = sent xo_both ++ tr.
Proof.
  cbv zeta.
  assert (Hs : same_resource (set_enabled true xo) (set_enabled true xo_a))
    by (repeat split).
  do 6 (split; [reflexivity |]).
  split; [cbn; lia |]. split; [cbn; lia |]. split; [exact Hs |].
  apply (prepare_votes_symmetric 64 accepting (fun _ _ => eq_refl) xo_both
           1 2 (set_enabled true xo) (set_enabled true xo_a));
    first [reflexivity | cbn; lia | exact Hs].
Defined.

Lemma unprepare_leaves_votes_of_peer_witness :
  let c := set_enabled true xo in
  let p := set_enabled true xo_a in
  clks xo_both !! 1 = Some c /\ clks xo_both !! 2 = Some p /\
  peer c = 2 /\ peer p = 1 /\ 1 <> 2 /\ enabled p = true /\
  rate c <> 0 /\ 0 < rate p /\ same_resource c p /\
  exists w' a s,
    (clk_smd_rpm_unprepare 64 accepting 1 ;;
     clk_smd_rpm_prepare 64 accepting 2) xo_both = Some (0, w') /\
    sent w' = sent xo_both ++ [(a, 0); (s, 0); (a, 0); (s, 0)] /\
    clks w' = <[2 := set_enabled true p]>
                (<[1 := set_enabled false c]> (clks xo_both)).
Proof.
  cbv zeta.
  assert (Hs : same_resource (set_enabled true xo) (set_enabled true xo_a))
    by (repeat split).
  do 4 (split; [reflexivity |]). split; [lia |]. split; [reflexivity |].
  split; [cbn; lia |]. split; [cbn; lia |]. split; [exact Hs |].
  apply (unprepare_leaves_votes_of_peer 64 accepting (fun _ _ => eq_refl)
           xo_both 1 2 (set_enabled true xo) (set_enabled true xo_a));
    first [reflexivity | lia | cbn; lia | exact Hs].
Defined.

Lemma recalc_rate_after_set_rate_witness :
  clks bus_running !! 3 = Some bus_on /\
  clks bus_running !! peer bus_on = Some bus_a /\
  exists ret w',
    clk_smd_rpm_set_rate 64 (scripted [0; - EIO]) 3 200000000 0 bus_running
    = Some (ret, w') /\
    clk_smd_rpm_recalc_rate 3 0 w'
    = Some (if enabled bus_on && (ret =? 0)
            then 200000000 else rate bus_on, w').
Proof.
  split; [reflexivity |]. split; [reflexivity |].
  apply (recalc_rate_after_set_rate 64 (scripted [0; - EIO]) bus_running 3
           bus_on bus_a 200000000 0 0); reflexivity.
Defined.

Lemma vote_buffer_for_any_rate_witness :
  clks boot !! 3 = Some bus /\
  exists ma ms,
    clk_smd_rpm_set_rate_active 64 accepting 3 (2 ^ 64 - 1) boot
    = Some (submit accepting ma boot) /\
    clk_smd_rpm_set_rate_sleep 64 accepting 3 (2 ^ 64 - 1) boot
    = Some (submit accepting ms boot) /\
    msg_buf ma = msg_buf ms /\
    length (msg_buf ma) = 12%nat /\
    Forall (fun b => 0 <= b < 256) (msg_buf ma) /\
    voted_value ma = ((2 ^ 64 - 1 + 999) mod 2 ^ 64 / 1000) mod 2 ^ 32.
Proof.
  split; [reflexivity |].
  apply (vote_buffer_for_any_rate 64 accepting 3 bus (2 ^ 64 - 1) boot).
  reflexivity.
Defined.

Lemma round_rate_returns_rate_witness :
  0 <= 19200000 < 2 ^ 64 /\
  exists r,
    clk_smd_rpm_round_rate 64 1 19200000 0 boot = Some (r, boot) /\
    (19200000 < 2 ^ (64 - 1) -> r = 19200000) /\
    (2 ^ (64 - 1) <= 19200000 -> r < 0).
Proof.
  split; [lia |].
  apply (round_rate_returns_rate 64 boot 1 19200000 0). lia.
Defined.

(** The probe of [rpmcc] at boot with the kernel [linux]: the four clocks
    are registered in the order of the table, and the provider gets their
    [struct clk *] with the error pointer of [-ENOENT] in the gap. *)
Lemma probe_rpmcc_runs :
  let run := rpm_smd_clk_probe accepting KEY_ENABLE MISC_CLK
               SCALING_ENABLE_ID linux rpmcc at_boot in
  fst <$> run = Some 0 /\
  sys_registered ∘ snd <$> run
  = Some [(1, 1001); (2, 1002); (3, 1003); (4, 1004)] /\
  sys_provider ∘ snd <$> run = Some (Some [1001; 1002; -2; 1003; 1004]) /\
  rpm_smd_clk_probe (scripted [- EIO]) KEY_ENABLE MISC_CLK
    SCALING_ENABLE_ID linux rpmcc at_boot
  = Some (- EIO,
          System (World (bound 100 [1; 2; 0; 3; 4] (clks boot))
                        [(scaling_msg KEY_ENABLE MISC_CLK SCALING_ENABLE_ID
                            100 QCOM_SMD_RPM_SLEEP_STATE, - EIO)])
                 [(1, 1001); (2, 1002); (3, 1003); (4, 1004)] None).
Proof. cbv zeta. repeat split; vm_compute; reflexivity. Qed.

Lemma probe_binds_registers_enables_witness :
  (forall l m, accepting l m = 0) /\
  parent_drvdata rpmcc <> 0 /\
  of_match_data rpmcc = Some [1; 2; 0; 3; 4] /\
  table_present [1; 2; 0; 3; 4] at_boot /\
  devm_kzalloc linux (length [1; 2; 0; 3; 4]) = true /\
  (forall l q, IS_ERR linux (devm_clk_register linux l q) = false) /\
  (forall out, of_clk_add_provider linux out = 0) /\
  exists s' out,
    rpm_smd_clk_probe accepting KEY_ENABLE MISC_CLK SCALING_ENABLE_ID
      linux rpmcc at_boot = Some (0, s') /\
    registered_all linux 100 [1; 2; 0; 3; 4] at_boot s' out /\
    sys_provider s' = Some out /\
    (forall q, q ∈ [1; 2; 0; 3; 4] -> q <> 0 ->
               rpm <$> clks (sys_world s') !! q = Some 100).
Proof.
  split; [reflexivity |]. split; [cbn; lia |]. split; [reflexivity |].
  split; [exact table_present_rpmcc |]. split; [reflexivity |].
  split; [exact linux_registers |]. split; [reflexivity |].
  destruct (probe_binds_registers_enables accepting KEY_ENABLE MISC_CLK
              SCALING_ENABLE_ID linux rpmcc at_boot [1; 2; 0; 3; 4]
              (fun _ _ => eq_refl) ltac:(cbn; lia) eq_refl
              table_present_rpmcc eq_refl linux_registers
              (fun _ => eq_refl))
    as (s' & out & Hrun & Hall & Hp & _ & Hb & _).
  exists s', out. split; [exact Hrun |]. split; [exact Hall |].
  split; [exact Hp | exact Hb].
Defined.

Lemma probe_calls_rpm_last_witness :
  (forall t, of_match_data rpmcc = Some t -> table_present t at_boot) /\
  exists ret s' tr,
    rpm_smd_clk_probe (scripted [- EIO]) KEY_ENABLE MISC_CLK
      SCALING_ENABLE_ID linux rpmcc at_boot = Some (ret, s') /\
    sent (sys_world s') = sent (sys_world at_boot) ++ tr /\
    (length tr <= 2)%nat /\
    (tr <> [] ->
     exists t out,
       of_match_data rpmcc = Some t /\
       registered_all linux (parent_drvdata rpmcc) t at_boot s' out /\
       of_clk_add_provider linux out = 0).
Proof.
  split; [exact rpmcc_present |].
  exact (probe_calls_rpm_last (scripted [- EIO]) KEY_ENABLE MISC_CLK
           SCALING_ENABLE_ID linux rpmcc at_boot rpmcc_present).
Defined.

Lemma probe_zero_iff_provider_witness :
  (forall t, of_match_data rpmcc = Some t -> table_present t at_boot) /\
  sys_provider at_boot = None /\
  ENODEV linux <> 0 /\ EINVAL linux <> 0 /\ ENOMEM linux <> 0 /\
  (forall x, IS_ERR linux x = true -> PTR_ERR linux x <> 0) /\
  exists ret s',
    rpm_smd_clk_probe (scripted [0; - EIO]) KEY_ENABLE MISC_CLK
      SCALING_ENABLE_ID linux rpmcc at_boot = Some (ret, s') /\
    (ret = 0 <-> is_Some (sys_provider s')) /\
    (ret <> 0 <-> sys_provider s' = None).
Proof.
  split; [exact rpmcc_present |]. split; [reflexivity |].
  split; [cbn; lia |]. split; [cbn; lia |]. split; [cbn; lia |].
  split; [exact linux_error_pointers |].
  apply (probe_zero_iff_provider (scripted [0; - EIO]) KEY_ENABLE MISC_CLK
           SCALING_ENABLE_ID linux rpmcc at_boot);
    first [ exact rpmcc_present | reflexivity | cbn; lia
          | exact linux_error_pointers ].
Defined.

